(** * Finance PDF converter: the text-to-table parser of [convert_clean.py]

    A shallow embedding of [extract_text_from_pdf], [parse_text_to_dataframe],
    [save_to_excel] and [convert_pdf_to_excel], and the properties of the
    line classifier, the hierarchy state machine and the data-row decoder.

    Text is a list of characters with code points below 256.  The character
    classes are the ones Python's [str] methods and [re] module have on
    these code points. *)

From Stdlib Require Import String Ascii List Bool Arith Lia.
From Stdlib Require Import QArith Lqa Permutation Sorted.
Import ListNotations.
Close Scope Q_scope.

Set Implicit Arguments.

(** ** Strings *)

Module PyStr.

Definition str := list ascii.

Definition lit (s : string) : str := list_ascii_of_string s.

(** Python truthiness of a string: [if s]. *)
Definition truthy (s : str) : bool :=
  match s with
  | [] => false
  | _ :: _ => true
  end.

Definition between (lo hi : nat) (c : ascii) : bool :=
  (lo <=? nat_of_ascii c) && (nat_of_ascii c <=? hi).

Definition code_is (n : nat) (c : ascii) : bool := nat_of_ascii c =? n.

(** [str.isspace] on one character, also the class [\s]:
    TAB LF VT FF CR, FS GS RS US and the space, NEL and the no-break space. *)
Definition isspace (c : ascii) : bool :=
  between 9 13 c || between 28 32 c || code_is 133 c || code_is 160 c.

(** The class [\d], and [str.isdecimal] on one character: [0] to [9]. *)
Definition isdecimal (c : ascii) : bool := between 48 57 c.

(** [str.isdigit] on one character: the decimal digits and the superscript
    digits two, three and one. *)
Definition isdigit_char (c : ascii) : bool :=
  isdecimal c || between 178 179 c || code_is 185 c.

(** The class [\w]: the underscore and what [str.isalnum] accepts, which in
    this range is the ASCII letters and digits, the ordinal indicators, the
    micro sign, the superscript digits, the vulgar fractions and the accented
    letters. *)
Definition isword (c : ascii) : bool :=
  isdecimal c || between 65 90 c || between 97 122 c || code_is 95 c
  || code_is 170 c || between 178 179 c || code_is 181 c || between 185 186 c
  || between 188 190 c || between 192 214 c || between 216 246 c
  || between 248 255 c.

Definition newline : ascii := ascii_of_nat 10.

Fixpoint dropwhile (p : ascii -> bool) (s : str) : str :=
  match s with
  | [] => []
  | c :: s' => if p c then dropwhile p s' else s
  end.

Fixpoint takewhile (p : ascii -> bool) (s : str) : str :=
  match s with
  | [] => []
  | c :: s' => if p c then c :: takewhile p s' else []
  end.

Definition lstrip (s : str) : str := dropwhile isspace s.
Definition rstrip (s : str) : str := rev (dropwhile isspace (rev s)).

(** [s.strip()] *)
Definition strip (s : str) : str := lstrip (rstrip s).

Definition nonspace (c : ascii) : bool := negb (isspace c).

(** [s.split(maxsplit=1)]: leading whitespace is skipped, the first token runs
    to the next whitespace, the whitespace run after it is skipped and what is
    left, if anything, is the second part, trailing whitespace included. *)
Definition split1 (s : str) : list str :=
  match lstrip s with
  | [] => []
  | c :: s' =>
      let tok := takewhile nonspace (c :: s') in
      match lstrip (dropwhile nonspace (c :: s')) with
      | [] => [tok]
      | d :: r => [tok; d :: r]
      end
  end.

(** [s.split('\n')] *)
Fixpoint split_nl (s : str) : list str :=
  match s with
  | [] => [[]]
  | c :: s' =>
      if Ascii.eqb c newline then [] :: split_nl s'
      else match split_nl s' with
           | l :: ls => (c :: l) :: ls
           | [] => [[c]]
           end
  end.

(** ["\n".join(parts)] *)
Fixpoint join_nl (parts : list str) : str :=
  match parts with
  | [] => []
  | [p] => p
  | p :: ps => p ++ newline :: join_nl ps
  end.

Fixpoint startswith (p s : str) : bool :=
  match p, s with
  | [], _ => true
  | _ :: _, [] => false
  | a :: p', b :: s' => Ascii.eqb a b && startswith p' s'
  end.

(** [p in s] *)
Fixpoint contains (p s : str) : bool :=
  startswith p s ||
  match s with
  | [] => false
  | _ :: s' => contains p s'
  end.

(** [s.isdigit()] *)
Definition isdigit (s : str) : bool := truthy s && forallb isdigit_char s.

(** [s] has no whitespace at its end. *)
Definition no_trail (s : str) : Prop := rstrip s = s.

End PyStr.

Import PyStr.

(** ** Regular expressions, as [re.match] runs them

    The patterns of the parser use literals, the classes [\d \s \w .], greedy
    repetition of one class, greedy [?], capture groups and concatenation.
    [run] lists the ways a pattern matches a prefix of the input in the order
    the backtracking matcher tries them; [re.match] takes the first. *)

Module Re.

Inductive cclass : Type :=
| Chr (c : ascii)
| Digit
| Space
| Word
| Dot.

Definition accepts (a : cclass) (c : ascii) : bool :=
  match a with
  | Chr d => Ascii.eqb c d
  | Digit => isdecimal c
  | Space => isspace c
  | Word => isword c
  | Dot => negb (Ascii.eqb c newline)
  end.

Inductive regex : Type :=
| Eps
| Atom (a : cclass)
| Rep (a : cclass) (lo : nat) (hi : option nat)
| Opt (r : regex)
| Grp (i : nat) (r : regex)
| Cat (r1 r2 : regex).

Definition groups := list (nat * str).

Fixpoint lookup (i : nat) (g : groups) : option str :=
  match g with
  | [] => None
  | (j, v) :: g' => if i =? j then Some v else lookup i g'
  end.

(** How many leading characters of [s] are in the class, at most [cap]. *)
Fixpoint span (a : cclass) (cap : option nat) (s : str) : nat :=
  match cap, s with
  | Some 0, _ => 0
  | _, [] => 0
  | _, c :: s' =>
      if accepts a c then S (span a (option_map Nat.pred cap) s') else 0
  end.

(** The counts a greedy repetition tries: the longest first, down to [lo]. *)
Definition counts (a : cclass) (lo : nat) (hi : option nat) (s : str) : list nat :=
  rev (seq lo (S (span a hi s) - lo)).

(** What of [s] was consumed when [s'] is left. *)
Definition consumed (s s' : str) : str := firstn (length s - length s') s.

Fixpoint run (r : regex) (s : str) (g : groups) : list (str * groups) :=
  match r with
  | Eps => [(s, g)]
  | Atom a =>
      match s with
      | c :: s' => if accepts a c then [(s', g)] else []
      | [] => []
      end
  | Rep a lo hi => map (fun k => (skipn k s, g)) (counts a lo hi s)
  | Opt r' => run r' s g ++ [(s, g)]
  | Grp i r' => map (fun m => (fst m, (i, consumed s (fst m)) :: snd m)) (run r' s g)
  | Cat r1 r2 => flat_map (fun m => run r2 (fst m) (snd m)) (run r1 s g)
  end.

(** [pattern.match(s)]: the first match at the start of [s], if any. *)
Definition re_match (r : regex) (s : str) : option groups :=
  option_map snd (hd_error (run r s [])).

Definition matches (r : regex) (s : str) : bool :=
  match re_match r s with
  | Some _ => true
  | None => false
  end.

Fixpoint cat (rs : list regex) : regex :=
  match rs with
  | [] => Eps
  | [r] => r
  | r :: rs' => Cat r (cat rs')
  end.

Definition word (s : string) : regex := cat (map (fun c => Atom (Chr c)) (lit s)).
Definition star (a : cclass) : regex := Rep a 0 None.
Definition plus (a : cclass) : regex := Rep a 1 None.
Definition exactly (n : nat) (a : cclass) : regex := Rep a n (Some n).
Definition at_least (n : nat) (a : cclass) : regex := Rep a n None.

(** The language of a pattern, and the groups it contains. *)
Inductive lang : regex -> str -> Prop :=
| lang_eps : lang Eps []
| lang_atom a c : accepts a c = true -> lang (Atom a) [c]
| lang_rep a lo hi w :
    Forall (fun c => accepts a c = true) w ->
    lo <= length w ->
    (forall h, hi = Some h -> length w <= h) ->
    lang (Rep a lo hi) w
| lang_opt_some r w : lang r w -> lang (Opt r) w
| lang_opt_none r : lang (Opt r) []
| lang_grp i r w : lang r w -> lang (Grp i r) w
| lang_cat r1 r2 w1 w2 : lang r1 w1 -> lang r2 w2 -> lang (Cat r1 r2) (w1 ++ w2).

(** [Grp i q] occurs in the pattern. *)
Fixpoint has_group (i : nat) (q : regex) (r : regex) : Prop :=
  match r with
  | Eps | Atom _ | Rep _ _ _ => False
  | Opt r' => has_group i q r'
  | Grp j r' => (i = j /\ q = r') \/ has_group i q r'
  | Cat r1 r2 => has_group i q r1 \/ has_group i q r2
  end.

(** A group is either the one the match started with or set by the pattern. *)
Definition set_by (r : regex) (g g' : groups) : Prop :=
  forall i v, lookup i g' = Some v ->
    lookup i g = Some v \/ exists q, has_group i q r /\ lang q v.

End Re.

Import Re.

(** ** The parser *)

(** The pattern  ^ \d{3} \s+ .*  (its parts set apart by blanks here). *)
Definition level1_pattern : regex :=
  cat [exactly 3 Digit; plus Space; star Dot].

(** The pattern  ^ \d{3} \. \d+ \s+ .*  *)
Definition level2_pattern : regex :=
  cat [exactly 3 Digit; Atom (Chr "."); plus Digit; plus Space; star Dot].

(** The pattern  ^ \d{4} \s+ .*  *)
Definition level3_pattern : regex :=
  cat [exactly 4 Digit; plus Space; star Dot].

(** The pattern  ^ (CADT\w+)? \s* - \s* (\d{8,})? \s* _? \s* X \s* _? \s* ( .* )
    Every pattern is used through [.match], which anchors at the start of the
    line, so the leading [^] adds nothing. *)
Definition data_pattern : regex :=
  cat [Opt (Grp 1 (Cat (word "CADT") (plus Word)));
       star Space; Atom (Chr "-"); star Space;
       Opt (Grp 2 (at_least 8 Digit));
       star Space; Opt (Atom (Chr "_")); star Space; Atom (Chr "X");
       star Space; Opt (Atom (Chr "_")); star Space;
       Grp 3 (star Dot)].

(** The hierarchy context: the four state variables of the loop. *)
Record Context : Type := mkContext {
  current_level_1 : str;
  current_level_2 : str;
  current_level_3_code : str;
  current_level_3_desc : str
}.

(** One row of [data], in the column order of the DataFrame. *)
Record Row : Type := mkRow {
  Level_1 : str;
  Level_2 : str;
  Level_3_Code : str;
  Level_3 : str;
  ID : str;
  Numeric_Code : str;
  Description : str
}.

Record State : Type := mkState {
  ctx : Context;
  data : list Row
}.

Definition init_context : Context := mkContext [] [] [] [].
Definition init_state : State := mkState init_context [].

(** [x if x else ''] on a group that may be [None]. *)
Definition or_empty (o : option str) : str :=
  match o with
  | Some s => s
  | None => []
  end.

(** The skip test of the loop: [not line or "PAGE" in line or "Deloitte ..." in line]. *)
Definition skipped (line : str) : bool :=
  negb (truthy line)
  || contains (lit "PAGE") line
  || contains (lit "Deloitte India Management Reporting") line.

(** [line.split(maxsplit=1)[1] if len(line.split(maxsplit=1)) > 1 else line] *)
Definition header_text (line : str) : str :=
  match split1 line with
  | _ :: t :: _ => t
  | _ => line
  end.

Definition is_level1 (line : str) : bool :=
  matches level1_pattern line
  && negb (matches level2_pattern line)
  && negb (matches level3_pattern line).

(** The clean-up and the fallback heuristic applied to the three groups. *)
Definition decode (g1 g2 g3 : option str) : str * str * str :=
  let id_code := or_empty g1 in
  let numeric_code := or_empty g2 in
  let description := strip (or_empty g3) in
  if truthy id_code && negb (truthy numeric_code) then
    match split1 description with
    | d0 :: d1 :: _ =>
        if isdigit d0 && (8 <=? length d0)
        then (id_code, d0, d1)
        else (id_code, numeric_code, description)
    | _ => (id_code, numeric_code, description)
    end
  else (id_code, numeric_code, description).

(** The part of the loop body that handles a line which is no header. *)
Definition data_row (c : Context) (line : str) : list Row :=
  match re_match data_pattern line with
  | Some g =>
      let '(id_code, numeric_code, description) :=
        decode (lookup 1 g) (lookup 2 g) (lookup 3 g) in
      if truthy id_code || truthy numeric_code then
        [mkRow (current_level_1 c) (current_level_2 c)
               (current_level_3_code c) (current_level_3_desc c)
               id_code numeric_code description]
      else []
  | None => []
  end.

(** One iteration of [for line in lines]. *)
Definition loop_body (st : State) (raw : str) : State :=
  let line := strip raw in
  let c := ctx st in
  if skipped line then st
  else if is_level1 line then
    mkState (mkContext (header_text line) [] [] []) (data st)
  else if matches level2_pattern line then
    mkState (mkContext (current_level_1 c) (header_text line) [] []) (data st)
  else if matches level3_pattern line then
    (* [parts[0]] is there: the line is not empty *)
    let parts := split1 line in
    mkState (mkContext (current_level_1 c) (current_level_2 c)
                       (hd [] parts)
                       (match parts with _ :: t :: _ => t | _ => [] end))
            (data st)
  else mkState c (data st ++ data_row c line).

Definition parse_lines (lines : list str) (st : State) : State :=
  fold_left loop_body lines st.

(** The rows of the DataFrame that [parse_text_to_dataframe] returns. *)
Definition parse_text_to_dataframe (text : str) : list Row :=
  data (parse_lines (split_nl text) init_state).

(** A numeric code as the table may hold one: digits only, eight or more. *)
Definition numeric_ok (v : str) : Prop :=
  Forall (fun c => isdecimal c = true) v /\ 8 <= length v.


(** ** Text extraction and the conversion entry point *)

(** A block of [page.get_text("blocks")]: its left and top coordinates
    [b[0]], [b[1]] and its text [b[4]].  The coordinates are floats in the
    source; a finite float is a rational and compares as one. *)
Record Block : Type := mkBlock {
  x0 : Q;
  y0 : Q;
  block_text : str
}.

Definition Page := list Block.

(** The order of the sort keys [(b[1], b[0])], Python's [<] on pairs. *)
Definition key_lt (a b : Block) : bool :=
  if Qeq_bool (y0 a) (y0 b)
  then negb (Qle_bool (x0 b) (x0 a))
  else negb (Qle_bool (y0 b) (y0 a)).

Fixpoint insert_block (b : Block) (l : list Block) : list Block :=
  match l with
  | [] => [b]
  | c :: l' => if key_lt c b then c :: insert_block b l' else b :: l
  end.

(** [a] is at or before [b] in reading order: higher on the page, or level
    with it and not to its right. *)
Definition block_le (a b : Block) : Prop :=
  (y0 a < y0 b)%Q \/ ((y0 a == y0 b)%Q /\ (x0 a <= x0 b)%Q).

(** [blocks.sort(key=...)]: [list.sort] is stable, and so is this insertion
    sort: a block goes in front of the later blocks with an equal key. *)
Definition sort_blocks (blocks : list Block) : list Block :=
  fold_right insert_block [] blocks.

(** What [fitz] makes of a file: a document it can read, or the exception
    [e] that [fitz.open] or a later call raises on it. *)
Inductive Pdf : Type :=
| Readable (pages : list Page)
| Broken (e : str).

(** A file: one put there as a document, known by what [fitz] makes of it;
    a workbook that [to_excel] has written whole; or what a [to_excel] that
    raised has left behind. *)
Inductive File : Type :=
| Doc (d : Pdf)
| Workbook (rows : list Row)
| Partial.

(** How [to_excel] fails for a path: the exception it raises, and whether it
    has left a partial workbook at the path by then. *)
Record Fault : Type := mkFault {
  fault_message : str;
  leaves_partial : bool
}.

(** The part of the outside world the script touches: one file system, what
    [fitz] makes of a file that is no document, for which paths [to_excel]
    fails and how, and what has been printed. *)
Record World : Type := mkWorld {
  file_at : str -> option File;
  foreign_pdf : File -> Pdf;
  to_excel_fault : str -> option Fault;
  stdout : list str
}.

Definition as_pdf (w : World) (f : File) : Pdf :=
  match f with
  | Doc d => d
  | _ => foreign_pdf w f
  end.

(** What [fitz] finds at a path, if the path exists. *)
Definition pdf_at (w : World) (path : str) : option Pdf :=
  option_map (as_pdf w) (file_at w path).

Definition print (msg : str) (w : World) : World :=
  mkWorld (file_at w) (foreign_pdf w) (to_excel_fault w) (stdout w ++ [msg]).

Definition str_eqb (a b : str) : bool :=
  if list_eq_dec ascii_dec a b then true else false.

(** Writing a file replaces what is at the path. *)
Definition write_file (path : str) (f : File) (w : World) : World :=
  mkWorld (fun p => if str_eqb p path then Some f else file_at w p)
          (foreign_pdf w) (to_excel_fault w) (stdout w).

(** The inner loop: [full_text.append(b[4].strip())] for each sorted block. *)
Definition page_fragments (full_text : list str) (page : Page) : list str :=
  fold_left (fun acc b => acc ++ [strip (block_text b)]) (sort_blocks page) full_text.

(** The list [full_text] after the loop over the pages. *)
Definition full_text_of (pages : list Page) : list str :=
  fold_left page_fragments pages [].

Definition extract_text_from_pdf (pdf_path : str) (w : World) : option str * World :=
  match pdf_at w pdf_path with
  | None =>
      (None, print (lit "Error: The file '" ++ pdf_path ++ lit "' was not found.") w)
  | Some (Broken e) =>
      (None, print (lit "An error occurred while reading the PDF: " ++ e) w)
  | Some (Readable pages) => (Some (join_nl (full_text_of pages)), w)
  end.

Definition success_message (excel_path : str) : str :=
  lit "Successfully converted PDF to Excel file: '" ++ excel_path ++ lit "'".

(** [save_to_excel] returns nothing and lets no exception out; what a
    [to_excel] that raised has left at the path stays there. *)
Definition save_to_excel (dataframe : list Row) (excel_path : str) (w : World) : World :=
  match to_excel_fault w excel_path with
  | None =>
      print (success_message excel_path)
            (write_file excel_path (Workbook dataframe) w)
  | Some ft =>
      print (lit "An error occurred while saving to Excel: " ++ fault_message ft)
            (if leaves_partial ft then write_file excel_path Partial w else w)
  end.

(** What is at the path once [save_to_excel] has returned. *)
Definition left_by_save (w : World) (dataframe : list Row) (excel_path : str)
  : option File :=
  match to_excel_fault w excel_path with
  | None => Some (Workbook dataframe)
  | Some ft => if leaves_partial ft then Some Partial else file_at w excel_path
  end.

Definition extraction_failed : str := lit "Failed to extract text from the PDF.".
Definition nothing_parsed : str :=
  lit "Could not parse any structured data from the PDF.".

(** [not raw_text]: [None] or the empty string. *)
Definition no_text (raw_text : option str) : bool :=
  match raw_text with
  | None => true
  | Some t => negb (truthy t)
  end.

(** [convert_pdf_to_excel].  None of the three calls lets an exception out,
    so the handler around them is never entered. *)
Definition convert_pdf_to_excel (pdf_path excel_path : str) (w : World)
  : (bool * str) * World :=
  let (raw_text, w1) := extract_text_from_pdf pdf_path w in
  if no_text raw_text then ((false, extraction_failed), w1)
  else
    let data_df := parse_text_to_dataframe (or_empty raw_text) in
    match data_df with
    | [] => ((false, nothing_parsed), w1)
    | _ :: _ =>
        let w2 := save_to_excel data_df excel_path w1 in
        ((true, success_message excel_path), w2)
    end.

(** What the extractor makes of one block. *)
Definition fragment (b : Block) : str := strip (block_text b).

(** A row of the table from a context and the three decoded fields. *)
Definition row_of (c : Context) (fields : str * str * str) : Row :=
  mkRow (current_level_1 c) (current_level_2 c)
        (current_level_3_code c) (current_level_3_desc c)
        (fst (fst fields)) (snd (fst fields)) (snd fields).

(** ** Worlds to run the script in *)

Definition no_document : File -> Pdf := fun _ => Broken (lit "cannot open document").

(** The file system with one file, at [in.pdf]. *)
Definition only_in_pdf (f : File) : str -> option File :=
  fun p => if str_eqb p (lit "in.pdf") then Some f else None.

(** At [in.pdf] a one-page document: a block [a] and, above it, a block of
    one blank.  Writing a spreadsheet works. *)
Definition two_block_world : World :=
  mkWorld (only_in_pdf (Doc (Readable [[mkBlock 0 1 (lit "a"); mkBlock 0 0 (lit " ")]])))
          no_document (fun _ => None) [].

(** At [in.pdf] a one-page document with one data row; writing a
    spreadsheet raises [Permission denied] with nothing written. *)
Definition read_only_world : World :=
  mkWorld (only_in_pdf (Doc (Readable [[mkBlock 0 0 (lit "CADTX1 - 12345678 X Fee")]])))
          no_document (fun _ => Some (mkFault (lit "Permission denied") false)) [].

(** The same document; writing a spreadsheet raises [No space left on
    device] with a partial workbook left. *)
Definition full_disk_world : World :=
  mkWorld (only_in_pdf (Doc (Readable [[mkBlock 0 0 (lit "CADTX1 - 12345678 X Fee")]])))
          no_document (fun _ => Some (mkFault (lit "No space left on device") true)) [].

(** ** The rest of the script and the upload filter *)

(** One of the three header branches of the loop body takes the line. *)
Definition is_header (line : str) : bool :=
  is_level1 line || matches level2_pattern line || matches level3_pattern line.



(** [allowed_file] of [app.py]. *)
Module App.

(** The set [{'pdf'}]. *)
Definition ALLOWED_EXTENSIONS : list str := [lit "pdf"].

(** [x in ALLOWED_EXTENSIONS] *)
Definition allowed_extension (x : str) : bool :=
  existsb (str_eqb x) ALLOWED_EXTENSIONS.

Definition lower_char (c : ascii) : ascii :=
  if between 65 90 c || between 192 214 c || between 216 222 c
  then ascii_of_nat (nat_of_ascii c + 32)
  else c.

(** [s.lower()] *)
Definition lower (s : str) : str := map lower_char s.

Definition not_dot (c : ascii) : bool := negb (Ascii.eqb c ".").

(** [s.rsplit('.', 1)]: the text before the last dot and the text after it,
    or the string alone when it has no dot. *)
Definition rsplit_dot (s : str) : list str :=
  match dropwhile not_dot (rev s) with
  | [] => [s]
  | _ :: before => [rev before; rev (takewhile not_dot (rev s))]
  end.

(** ['.' in filename and filename.rsplit('.', 1)[1].lower() in ALLOWED_EXTENSIONS];
    the second part is read only when there is a dot, and then it exists. *)
Definition allowed_file (filename : str) : bool :=
  contains (lit ".") filename
  && match rsplit_dot filename with
     | _ :: ext :: _ => allowed_extension (lower ext)
     | _ => false
     end.

End App.

(** ** Shapes of lines and of fields, to state what the parser keeps *)

(** [n] digits and then a whitespace character. *)
Definition digits_then_space (n : nat) (line : str) : Prop :=
  exists t w rest,
    line = t ++ w :: rest /\ length t = n /\
    Forall (fun c => isdecimal c = true) t /\ isspace w = true.

(** The four level fields as the loop can have set them: levels 1 and 2
    stripped, and level 3 either unset or a code of four digits with a
    non-empty stripped text. *)
Definition level_fields_ok (l1 l2 code desc : str) : Prop :=
  strip l1 = l1 /\ strip l2 = l2 /\
  ((code = [] /\ desc = []) \/
   (length code = 4 /\ Forall (fun c => isdecimal c = true) code /\
    desc <> [] /\ strip desc = desc)).

(** An id as the pattern captures it: [CADT] and one or more word characters. *)
Definition cadt_id (v : str) : Prop :=
  exists tail, v = lit "CADT" ++ tail /\ tail <> [] /\
               Forall (fun c => isword c = true) tail.

Definition context_ok (c : Context) : Prop :=
  level_fields_ok (current_level_1 c) (current_level_2 c)
                  (current_level_3_code c) (current_level_3_desc c).

(** The line changes no level: it is skipped or passes none of the header tests. *)
Definition keeps_levels (raw : str) : bool :=
  skipped (strip raw) || negb (is_header (strip raw)).

(** The row has the four level fields of the context. *)
Definition carries (c : Context) (r : Row) : Prop :=
  Level_1 r = current_level_1 c /\ Level_2 r = current_level_2 c /\
  Level_3_Code r = current_level_3_code c /\ Level_3 r = current_level_3_desc c.

(** ** The upload route of [app.py]

    [index] as a function of the request and the world.  What comes from
    Flask, werkzeug, [os.path] and [secrets] is a field of [Env]; a flash
    with a redirect is one response, [Redirect], and the rendered upload
    form is [Template].  Saving the upload and
    removing a file are taken to succeed, so the only exception in the [try]
    block is the one [open] raises when no file is at the output path. *)

Module Web.

Import App.

(** An uploaded file: its name and, for its content, what [fitz] makes of it. *)
Record Upload : Type := mkUpload {
  filename : str;
  content : Pdf
}.

(** [request.method == 'POST'] and [request.files.get('file')]. *)
Record Request : Type := mkRequest {
  is_post : bool;
  file : option Upload
}.

(** The download carries the file that was at the output path. *)
Inductive Response : Type :=
| Template
| Redirect (flash : str)
| Download (download_name : str) (excel_data : File).

Record Env : Type := mkEnv {
  secure_filename : str -> str;
  splitext_root : str -> str;
  token_hex : nat -> str;
  UPLOAD_FOLDER : str;
  path_join : str -> str -> str;
  open_error : str -> str
}.

(** [file.save(path)] *)
Definition save_upload (path : str) (c : Pdf) (w : World) : World :=
  write_file path (Doc c) w.

(** [if os.path.exists(path): os.remove(path)] *)
Definition remove_file (path : str) (w : World) : World :=
  mkWorld (fun p => if str_eqb p path then None else file_at w p)
          (foreign_pdf w) (to_excel_fault w) (stdout w).

Definition base_name (env : Env) (f : Upload) : str :=
  splitext_root env (secure_filename env (filename f)).

Definition pdf_path (env : Env) (f : Upload) : str :=
  path_join env (UPLOAD_FOLDER env)
            (base_name env f ++ lit "_" ++ token_hex env 0 ++ lit ".pdf").

Definition excel_path (env : Env) (f : Upload) : str :=
  path_join env (UPLOAD_FOLDER env)
            (base_name env f ++ lit "_" ++ token_hex env 1 ++ lit ".xlsx").

(** The text [convert_pdf_to_excel] gets from the upload it was saved for. *)
Definition upload_text (f : Upload) : option str :=
  match content f with
  | Readable pages => Some (join_nl (full_text_of pages))
  | Broken _ => None
  end.

(** The [try] block and its handler, for an upload with an allowed name.
    [open] reads whatever file is at the output path. *)
Definition process (env : Env) (f : Upload) (w : World) : Response * World :=
  let w1 := save_upload (pdf_path env f) (content f) w in
  let (result, w2) := convert_pdf_to_excel (pdf_path env f) (excel_path env f) w1 in
  let w3 := remove_file (pdf_path env f) w2 in
  if fst result then
    match file_at w3 (excel_path env f) with
    | Some excel_data =>
        (Download (base_name env f ++ lit ".xlsx") excel_data,
         remove_file (excel_path env f) w3)
    | None =>
        (Redirect (lit "An error occurred: " ++ open_error env (excel_path env f)),
         remove_file (excel_path env f) (remove_file (pdf_path env f) w3))
    end
  else (Redirect (lit "Conversion failed: " ++ snd result), w3).

Definition index (env : Env) (req : Request) (w : World) : Response * World :=
  if is_post req then
    match file req with
    | None => (Redirect (lit "No file selected"), w)
    | Some f =>
        if negb (truthy (filename f)) then (Redirect (lit "No file selected"), w)
        else if allowed_file (filename f) then process env f w
        else (Redirect (lit "Invalid file type. Please upload a PDF file."), w)
    end
  else (Template, w).

(** An environment and worlds to run the route in: names are kept as they
    are but for the extension, the tokens are [t0] and [t1], and the upload
    is a document with one data row.  No file is there at first; in
    [fresh_world] spreadsheets can be written, in [failing_world] writing one
    raises with nothing written, in [partial_world] with a partial workbook
    left. *)
Definition plain_env : Env :=
  mkEnv (fun s => s) (fun s => hd [] (rsplit_dot s))
        (fun n => match n with 0 => lit "t0" | _ => lit "t1" end)
        (lit "/tmp/uploads") (fun a b => a ++ lit "/" ++ b)
        (fun path => lit "[Errno 2] No such file or directory: '" ++ path ++ lit "'").

Definition one_row_upload : Upload :=
  mkUpload (lit "report.PDF")
           (Readable [[mkBlock 0 0 (lit "CADTX1 - 12345678 X Fee")]]).

Definition fresh_world : World :=
  mkWorld (fun _ => None) no_document (fun _ => None) [].

Definition failing_world : World :=
  mkWorld (fun _ => None) no_document
          (fun _ => Some (mkFault (lit "Permission denied") false)) [].

Definition partial_world : World :=
  mkWorld (fun _ => None) no_document
          (fun _ => Some (mkFault (lit "No space left on device") true)) [].

End Web.

(** ** The first match

    [first r s g m]: [m] is the match the backtracking matcher finds first. *)

Definition first (r : regex) (s : str) (g : groups) (m : str * groups) : Prop :=
  exists l, run r s g = m :: l.

(** The class ends where [s] starts. *)
Definition stops (a : cclass) (s : str) : Prop :=
  match s with
  | [] => True
  | c :: _ => accepts a c = false
  end.

(** The mark between the codes and the description of a data row: the
    capital X, with or without an underscore on either side, and a blank. *)
Definition x_mark (before after : bool) : str :=
  (if before then lit "_" else []) ++ lit "X"
  ++ (if after then lit "_" else []) ++ lit " ".

(** A description the pattern takes whole: nothing the blanks or the
    optional underscore before it would take, and no newline. *)
Definition plain_description (desc : str) : Prop :=
  stops Space desc /\ stops (Chr "_") desc /\ ~ In newline desc.

(** A description as a data row gives it: not empty, stripped, on one line. *)
Definition description_ok (desc : str) : Prop :=
  desc <> [] /\ strip desc = desc /\ ~ In newline desc.

(** The two layouts of a data row: id, dash, numeric code, mark, description;
    and id, dash, mark, then the numeric code in front of the description. *)
Definition direct_line (tail digits : str) (u1 u2 : bool) (desc : str) : str :=
  lit "CADT" ++ tail ++ lit " - " ++ digits ++ lit " " ++ x_mark u1 u2 ++ desc.

Definition fused_line (tail digits : str) (u1 u2 : bool) (desc : str) : str :=
  lit "CADT" ++ tail ++ lit " - " ++ x_mark u1 u2 ++ digits ++ lit " " ++ desc.

(** * Properties *)

(** ** Facts about the string operations *)

Section StringFacts.

Lemma truthy_iff (s : str) : truthy s = true <-> s <> [].
Proof.
  destruct s; simpl; split; intro H; congruence.
Qed.

Lemma truthy_false (s : str) : truthy s = false <-> s = [].
Proof.
  destruct s; simpl; split; intro H; congruence.
Qed.

Lemma isdigit_spec (s : str) :
  isdigit s = true <-> s <> [] /\ Forall (fun c => isdigit_char c = true) s.
Proof.
  unfold isdigit. rewrite andb_true_iff, truthy_iff, forallb_forall, Forall_forall.
  reflexivity.
Qed.

Lemma take_drop (p : ascii -> bool) (s : str) :
  takewhile p s ++ dropwhile p s = s.
Proof.
  induction s as [|c s IH]; simpl; [reflexivity|].
  destruct (p c); simpl; [rewrite IH|]; reflexivity.
Qed.

Lemma takewhile_all (p : ascii -> bool) (s : str) :
  Forall (fun c => p c = true) (takewhile p s).
Proof.
  induction s as [|c s IH]; simpl; [constructor|].
  destruct (p c) eqn:E; constructor; assumption.
Qed.

(** What [dropwhile] leaves does not start in the class. *)
Lemma dropwhile_head (p : ascii -> bool) (s : str) c r :
  dropwhile p s = c :: r -> p c = false.
Proof.
  induction s as [|d s IH]; simpl; [discriminate|].
  destruct (p d) eqn:E; [exact IH|].
  intro H; inversion H; subst; exact E.
Qed.

Lemma dropwhile_fix (p : ascii -> bool) c r :
  p c = false -> dropwhile p (c :: r) = c :: r.
Proof. intro H; simpl; rewrite H; reflexivity. Qed.

Lemma dropwhile_idem (p : ascii -> bool) (s : str) :
  dropwhile p (dropwhile p s) = dropwhile p s.
Proof.
  destruct (dropwhile p s) as [|c r] eqn:E; [reflexivity|].
  apply dropwhile_fix. eapply dropwhile_head; exact E.
Qed.

Lemma dropwhile_length (p : ascii -> bool) (s : str) :
  length (dropwhile p s) <= length s.
Proof.
  induction s as [|c s IH]; simpl; [lia|].
  destruct (p c); simpl; lia.
Qed.

(** A string [dropwhile] leaves alone is empty or starts outside the class. *)
Lemma dropwhile_same (p : ascii -> bool) c r :
  dropwhile p (c :: r) = c :: r -> p c = false.
Proof. apply dropwhile_head. Qed.

Lemma no_trail_rev (s : str) :
  no_trail s <-> dropwhile isspace (rev s) = rev s.
Proof.
  unfold no_trail, rstrip. split; intro H.
  - rewrite <- H at 2. rewrite rev_involutive. reflexivity.
  - rewrite H. apply rev_involutive.
Qed.

Lemma rstrip_no_trail (s : str) : no_trail (rstrip s).
Proof.
  apply no_trail_rev. unfold rstrip. rewrite rev_involutive. apply dropwhile_idem.
Qed.

(** A non-empty end of a string without trailing whitespace has none either. *)
Lemma no_trail_suffix (a b : str) :
  no_trail (a ++ b) -> b <> [] -> no_trail b.
Proof.
  rewrite !no_trail_rev, rev_app_distr. intros H Hb.
  destruct (rev b) as [|c r] eqn:E.
  - apply (f_equal (@rev ascii)) in E. rewrite rev_involutive in E. contradiction.
  - simpl in H. apply dropwhile_fix.
    destruct (isspace c) eqn:Ec; [|reflexivity].
    exfalso.
    pose proof (dropwhile_length isspace (r ++ rev a)) as L.
    rewrite H in L. simpl in L. lia.
Qed.

Lemma lstrip_suffix (s : str) : exists ws, s = ws ++ lstrip s.
Proof.
  exists (takewhile isspace s). symmetry. apply take_drop.
Qed.

Lemma no_trail_lstrip (s : str) : no_trail s -> no_trail (lstrip s).
Proof.
  intro H. destruct (lstrip s) as [|c r] eqn:E; [reflexivity|].
  destruct (lstrip_suffix s) as [ws Hs]. rewrite E in Hs.
  apply no_trail_suffix with (a := ws); [rewrite <- Hs; exact H|discriminate].
Qed.

Lemma strip_no_trail (s : str) : no_trail (strip s).
Proof. apply no_trail_lstrip, rstrip_no_trail. Qed.

(** [strip] leaves a stripped string as it is. *)
Lemma strip_idem (s : str) : strip (strip s) = strip s.
Proof.
  unfold strip at 1. rewrite (strip_no_trail s).
  unfold strip, lstrip. apply dropwhile_idem.
Qed.

(** A string that starts and ends outside whitespace is its own [strip]. *)
Lemma strip_fix c r :
  isspace c = false -> no_trail (c :: r) -> strip (c :: r) = c :: r.
Proof.
  intros Hc Ht. unfold strip. rewrite Ht. apply dropwhile_fix. exact Hc.
Qed.

(** A stripped string is empty or starts outside whitespace. *)
Lemma strip_head (s : str) c r : strip s = c :: r -> isspace c = false.
Proof. unfold strip, lstrip. apply dropwhile_head. Qed.

(** The two parts of [split(maxsplit=1)]: the string is leading whitespace,
    the first token, a whitespace run and the second part. *)
Lemma split1_two (s : str) tok rest l :
  split1 s = tok :: rest :: l ->
  l = [] /\ rest <> [] /\
  (exists c r, rest = c :: r /\ isspace c = false) /\
  (exists ws0 ws, s = ws0 ++ tok ++ ws ++ rest /\ ws <> [] /\
                  Forall (fun c => isspace c = true) ws) /\
  tok = takewhile nonspace (lstrip s).
Proof.
  unfold split1. destruct (lstrip_suffix s) as [ws0 Hs].
  destruct (lstrip s) as [|c s'] eqn:E; [discriminate|].
  remember (c :: s') as t eqn:Et.
  pose proof (take_drop nonspace t) as Htd.
  pose proof (take_drop isspace (dropwhile nonspace t)) as Hws.
  fold (lstrip (dropwhile nonspace t)) in Hws.
  destruct (lstrip (dropwhile nonspace t)) as [|d r] eqn:Er; [discriminate|].
  intro H; injection H as <- <- <-.
  split; [reflexivity|]. split; [discriminate|].
  split; [exists d, r; split; [reflexivity|]; eapply dropwhile_head; exact Er|].
  split; [|reflexivity].
  exists ws0, (takewhile isspace (dropwhile nonspace t)).
  split; [rewrite Hws, Htd; exact Hs|].
  split; [|apply takewhile_all].
  intro Hn. rewrite Hn in Hws. simpl in Hws.
  assert (Hd : nonspace d = false).
  { apply dropwhile_head with (s := t) (r := r). symmetry. exact Hws. }
  assert (Hd' : isspace d = false) by (eapply dropwhile_head; exact Er).
  unfold nonspace in Hd. rewrite Hd' in Hd. discriminate.
Qed.

(** The second part of a split of a stripped string is stripped. *)
Lemma split1_rest_stripped (s : str) tok rest l :
  split1 (strip s) = tok :: rest :: l -> strip rest = rest.
Proof.
  intro H. destruct (split1_two _ H) as [_ [_ [[c [r [-> Hc]]] [[ws0 [ws [Hs _]]] _]]]].
  apply strip_fix; [exact Hc|].
  apply no_trail_suffix with (a := ws0 ++ tok ++ ws); [|discriminate].
  rewrite <- !app_assoc, <- Hs. apply strip_no_trail.
Qed.

Lemma startswith_app (m s : str) :
  startswith m s = true <-> exists b, s = m ++ b.
Proof.
  revert s; induction m as [|a m IH]; intros s; simpl.
  - split; [intros _; exists s; reflexivity|reflexivity].
  - destruct s as [|c s].
    + split; [discriminate|intros [b H]; discriminate].
    + rewrite andb_true_iff, Ascii.eqb_eq, IH. split.
      * intros [-> [b ->]]. exists b. reflexivity.
      * intros [b H]. inversion H; subst. split; [reflexivity|exists b; reflexivity].
Qed.

(** [m in s] says that [s] has [m] somewhere inside. *)
Lemma contains_app (m s : str) :
  contains m s = true <-> exists a b, s = a ++ m ++ b.
Proof.
  induction s as [|c s IH].
  - simpl. rewrite orb_false_r, startswith_app. split.
    + intros [b H]. exists [], b. exact H.
    + intros [a [b H]]. destruct a as [|x a]; [exists b; exact H|discriminate].
  - change (contains m (c :: s)) with (startswith m (c :: s) || contains m s).
    rewrite orb_true_iff, startswith_app, IH. split.
    + intros [[b H]|[a [b H]]].
      * exists [], b. exact H.
      * exists (c :: a), b. rewrite H. reflexivity.
    + intros [a [b H]]. destruct a as [|x a].
      * left. exists b. exact H.
      * right. inversion H; subst. exists a, b. reflexivity.
Qed.

Lemma contains_rev (m s : str) :
  contains m s = true -> contains (rev m) (rev s) = true.
Proof.
  rewrite !contains_app. intros [a [b ->]].
  exists (rev b), (rev a). rewrite !rev_app_distr, app_assoc. reflexivity.
Qed.

(** Dropping leading whitespace keeps an occurrence of a marker that does
    not start with whitespace. *)
Lemma contains_lstrip (m0 : ascii) (m s : str) :
  isspace m0 = false ->
  contains (m0 :: m) s = true -> contains (m0 :: m) (lstrip s) = true.
Proof.
  intros Hm. induction s as [|c s IH]; [trivial|].
  unfold lstrip. simpl dropwhile. destruct (isspace c) eqn:Ec; [|trivial].
  change (contains (m0 :: m) (c :: s))
    with (startswith (m0 :: m) (c :: s) || contains (m0 :: m) s).
  simpl startswith. destruct (Ascii.eqb m0 c) eqn:E.
  - apply Ascii.eqb_eq in E. congruence.
  - simpl. exact IH.
Qed.

Lemma contains_rstrip (m s : str) ml mr :
  rev m = ml :: mr -> isspace ml = false ->
  contains m s = true -> contains m (rstrip s) = true.
Proof.
  intros Hr Hl H. apply contains_rev in H. rewrite Hr in H.
  apply contains_lstrip in H; [|exact Hl]. rewrite <- Hr in H.
  apply contains_rev in H. rewrite rev_involutive in H. exact H.
Qed.

(** [strip] keeps an occurrence of a marker that neither starts nor ends
    with whitespace. *)
Lemma contains_strip (m s : str) m0 m' ml mr :
  m = m0 :: m' -> isspace m0 = false ->
  rev m = ml :: mr -> isspace ml = false ->
  contains m s = true -> contains m (strip s) = true.
Proof.
  intros -> H0 Hr Hl H. unfold strip. apply contains_lstrip; [exact H0|].
  eapply contains_rstrip; eassumption.
Qed.

Lemma dropwhile_all (p : ascii -> bool) (a b : str) :
  Forall (fun c => p c = true) a -> dropwhile p (a ++ b) = dropwhile p b.
Proof.
  induction 1 as [|c a Hc Ha IH]; simpl; [reflexivity|].
  rewrite Hc. exact IH.
Qed.

Lemma dropwhile_nil (p : ascii -> bool) (s : str) :
  dropwhile p s = [] -> Forall (fun c => p c = true) s.
Proof.
  induction s as [|c s IH]; simpl; [constructor|].
  destruct (p c) eqn:E; [|discriminate].
  intro H. constructor; [exact E|apply IH; exact H].
Qed.

Lemma takewhile_stop (p : ascii -> bool) (a : str) c b :
  Forall (fun x => p x = true) a -> p c = false ->
  takewhile p (a ++ c :: b) = a /\ dropwhile p (a ++ c :: b) = c :: b.
Proof.
  intros Ha Hc. induction Ha as [|x a Hx Ha IH]; simpl.
  - rewrite Hc. split; reflexivity.
  - rewrite Hx. destruct IH as [-> ->]. split; reflexivity.
Qed.

(** A non-empty string that is all whitespace has whitespace at its end. *)
Lemma no_trail_not_blank (b : str) :
  no_trail b -> b <> [] -> Forall (fun c => isspace c = true) b -> False.
Proof.
  intros Ht Hb Hall. apply no_trail_rev in Ht.
  destruct (rev b) as [|c r] eqn:E.
  - apply (f_equal (@rev ascii)) in E. rewrite rev_involutive in E. contradiction.
  - apply dropwhile_same in Ht.
    assert (Hin : In c b) by (apply in_rev; rewrite E; left; reflexivity).
    rewrite Forall_forall in Hall. rewrite (Hall _ Hin) in Ht. discriminate.
Qed.

(** [split(maxsplit=1)] of a line without trailing whitespace that starts
    with a token [t] followed by whitespace: there are two parts. *)
Lemma split1_token (t ws r : str) :
  t <> [] -> Forall (fun c => nonspace c = true) t ->
  ws <> [] -> Forall (fun c => isspace c = true) ws ->
  no_trail (t ++ ws ++ r) ->
  split1 (t ++ ws ++ r) = [t; lstrip r] /\ lstrip r <> [] /\
  dropwhile nonspace (t ++ ws ++ r) = ws ++ r.
Proof.
  intros Ht Hall Hws Hsp Hnt.
  destruct t as [|c t]; [contradiction|].
  destruct ws as [|w ws]; [contradiction|].
  assert (Hc : isspace c = false).
  { inversion Hall as [|? ? Hc' _]; subst. unfold nonspace in Hc'.
    apply negb_true_iff in Hc'; exact Hc'. }
  assert (Hw : nonspace w = false).
  { inversion Hsp as [|? ? Hw' _]; subst. unfold nonspace. rewrite Hw'. reflexivity. }
  destruct (@takewhile_stop nonspace (c :: t) w (ws ++ r) Hall Hw) as [Htk Hdr].
  assert (Hl : lstrip ((w :: ws) ++ r) = lstrip r) by (apply dropwhile_all; exact Hsp).
  assert (Hne : lstrip r <> []).
  { intro Hn. apply dropwhile_nil in Hn.
    apply (@no_trail_not_blank ((w :: ws) ++ r)).
    - apply no_trail_suffix with (a := c :: t); [exact Hnt|discriminate].
    - discriminate.
    - apply Forall_app. split; assumption. }
  split; [|split; [exact Hne|exact Hdr]].
  unfold split1. change (lstrip ((c :: t) ++ (w :: ws) ++ r))
    with (dropwhile isspace (c :: (t ++ (w :: ws) ++ r))).
  rewrite (@dropwhile_fix isspace c _ Hc).
  change (c :: t ++ (w :: ws) ++ r) with ((c :: t) ++ w :: (ws ++ r)).
  rewrite Htk, Hdr. change (w :: ws ++ r) with ((w :: ws) ++ r). rewrite Hl.
  destruct (lstrip r) as [|d r']; [contradiction|reflexivity].
Qed.

(** A string with a character that is not whitespace has a first token. *)
Lemma split1_first (s : str) :
  lstrip s <> [] ->
  exists tok l, split1 s = tok :: l /\ tok = takewhile nonspace (lstrip s) /\ tok <> [].
Proof.
  intro H. unfold split1. destruct (lstrip s) as [|c s'] eqn:E; [contradiction|].
  assert (Hc : nonspace c = true).
  { unfold nonspace. rewrite (dropwhile_head _ _ E). reflexivity. }
  assert (Ht : takewhile nonspace (c :: s') <> []) by (simpl; rewrite Hc; discriminate).
  destruct (lstrip (dropwhile nonspace (c :: s'))) as [|d r];
    eexists; eexists; (split; [reflexivity|split; [reflexivity|exact Ht]]).
Qed.

Lemma digit_nonspace (c : ascii) : isdecimal c = true -> nonspace c = true.
Proof.
  unfold isdecimal, nonspace, isspace, between, code_is.
  repeat match goal with
         | |- context [?a <=? ?b] => destruct (Nat.leb_spec a b)
         | |- context [?a =? ?b] => destruct (Nat.eqb_spec a b)
         end; simpl; intro Hdec; try reflexivity; try discriminate; lia.
Qed.

End StringFacts.

(** ** Soundness of the matcher

    What [run] returns is a match in the usual sense: the consumed text is a
    word of the pattern's language, and every group it has set holds a word
    of a group of that number in the pattern. *)

Module ReFacts.

Lemma span_le_length a cap s : span a cap s <= length s.
Proof.
  revert cap; induction s as [|c s IH]; intros cap.
  - destruct cap as [[|n]|]; simpl; lia.
  - destruct cap as [[|n]|]; simpl; try lia;
      destruct (accepts a c); try lia;
      match goal with |- S (span a ?k s) <= _ => specialize (IH k) end; lia.
Qed.

Lemma span_le_cap a h s : span a (Some h) s <= h.
Proof.
  revert h; induction s as [|c s IH]; intros h.
  - destruct h; simpl; lia.
  - destruct h as [|n]; simpl; try lia.
    destruct (accepts a c); try lia.
    specialize (IH n). lia.
Qed.

Lemma span_firstn a cap s k :
  k <= span a cap s -> Forall (fun c => accepts a c = true) (firstn k s).
Proof.
  revert cap k; induction s as [|c s IH]; intros cap k Hk.
  - rewrite firstn_nil. constructor.
  - destruct k as [|k]; [constructor|].
    simpl. destruct cap as [[|n]|]; simpl in Hk; try lia;
      destruct (accepts a c) eqn:E; try lia;
      (constructor; [exact E| eapply IH; apply le_S_n; exact Hk]).
Qed.

Lemma in_counts a lo hi s k :
  In k (counts a lo hi s) <-> lo <= k <= span a hi s.
Proof.
  unfold counts. rewrite <- in_rev, in_seq. lia.
Qed.

Lemma consumed_app (w s' : str) : consumed (w ++ s') s' = w.
Proof.
  unfold consumed. rewrite length_app.
  replace (length w + length s' - length s') with (length w) by lia.
  rewrite firstn_app, firstn_all, Nat.sub_diag. simpl. apply app_nil_r.
Qed.

Lemma set_by_refl r g : set_by r g g.
Proof. intros i v H; left; exact H. Qed.

Theorem run_sound (r : regex) :
  forall s g s' g',
    In (s', g') (run r s g) ->
    exists w, s = w ++ s' /\ lang r w /\ set_by r g g'.
Proof.
  induction r as [|a|a lo hi|r IH|i r IH|r1 IH1 r2 IH2]; intros s g s' g' Hin; simpl in Hin.
  - destruct Hin as [E|[]]; inversion E; subst.
    exists []. split; [reflexivity|]. split; [constructor|apply set_by_refl].
  - destruct s as [|c s]; [contradiction|].
    destruct (accepts a c) eqn:Ea; [|contradiction].
    destruct Hin as [E|[]]; inversion E; subst.
    exists [c]. split; [reflexivity|].
    split; [constructor; exact Ea|apply set_by_refl].
  - apply in_map_iff in Hin. destruct Hin as [k [E Hk]].
    inversion E; subst. apply in_counts in Hk.
    exists (firstn k s). split; [symmetry; apply firstn_skipn|].
    split; [|apply set_by_refl].
    assert (Hlen : k <= length s) by (pose proof (span_le_length a hi s); lia).
    constructor.
    + apply span_firstn with (cap := hi). lia.
    + rewrite length_firstn. lia.
    + intros h ->. rewrite length_firstn. pose proof (span_le_cap a h s). lia.
  - apply in_app_or in Hin. destruct Hin as [Hin|[E|[]]].
    + destruct (IH _ _ _ _ Hin) as [w [E [L G]]].
      exists w. split; [exact E|]. split; [apply lang_opt_some; exact L|exact G].
    + inversion E; subst. exists []. split; [reflexivity|].
      split; [apply lang_opt_none|apply set_by_refl].
  - apply in_map_iff in Hin. destruct Hin as [[s1 g1] [E Hin]].
    simpl in E. inversion E; subst.
    destruct (IH _ _ _ _ Hin) as [w [E' [L G]]]. subst s.
    exists w. split; [reflexivity|]. split; [constructor; exact L|].
    rewrite consumed_app. intros j v Hl. simpl in Hl.
    destruct (j =? i) eqn:Ej.
    + apply Nat.eqb_eq in Ej. inversion Hl; subst.
      right. exists r. split; [left; split; reflexivity|exact L].
    + destruct (G _ _ Hl) as [H|[q [Hq Lq]]]; [left; exact H|].
      right. exists q. split; [right; exact Hq|exact Lq].
  - apply in_flat_map in Hin. destruct Hin as [[s1 g1] [H1 H2]]. simpl in H2.
    destruct (IH1 _ _ _ _ H1) as [w1 [E1 [L1 G1]]].
    destruct (IH2 _ _ _ _ H2) as [w2 [E2 [L2 G2]]].
    exists (w1 ++ w2). split; [rewrite <- app_assoc; congruence|].
    split; [constructor; assumption|].
    intros j v Hl. destruct (G2 _ _ Hl) as [H|[q [Hq Lq]]].
    + destruct (G1 _ _ H) as [H'|[q [Hq Lq]]]; [left; exact H'|].
      right. exists q. split; [left; exact Hq|exact Lq].
    + right. exists q. split; [right; exact Hq|exact Lq].
Qed.

(** The same for [re.match]: the line starts with a word of the pattern, and
    each group of the match holds a word of a group of the pattern. *)
Corollary re_match_sound r s g :
  re_match r s = Some g ->
  (exists w s', s = w ++ s' /\ lang r w) /\
  (forall i v, lookup i g = Some v -> exists q, has_group i q r /\ lang q v).
Proof.
  unfold re_match. destruct (run r s []) as [|[s' g'] l] eqn:E; simpl; [discriminate|].
  intro H; inversion H; subst.
  destruct (@run_sound r s [] s' g) as [w [Es [L G]]]; [rewrite E; left; reflexivity|].
  split; [exists w, s'; split; assumption|].
  intros i v Hl. destruct (G _ _ Hl) as [H'|H']; [discriminate|exact H'].
Qed.

End ReFacts.

Import ReFacts.

(** ** Rows of the table *)

Section Rows.

Variable P : Row -> Prop.
Hypothesis data_row_P : forall c line r, In r (data_row c line) -> P r.

Lemma loop_body_rows st raw :
  Forall P (data st) -> Forall P (data (loop_body st raw)).
Proof.
  intro H. unfold loop_body.
  destruct (skipped (strip raw)); [exact H|].
  destruct (is_level1 (strip raw)); [exact H|].
  destruct (matches level2_pattern (strip raw)); [exact H|].
  destruct (matches level3_pattern (strip raw)); [exact H|].
  simpl. apply Forall_app. split; [exact H|].
  apply Forall_forall. intros r Hr. eapply data_row_P; exact Hr.
Qed.

Lemma parse_lines_rows lines :
  forall st, Forall P (data st) -> Forall P (data (parse_lines lines st)).
Proof.
  induction lines as [|l lines IH]; intros st H; simpl; [exact H|].
  apply IH. apply loop_body_rows. exact H.
Qed.

Lemma parse_rows text : Forall P (parse_text_to_dataframe text).
Proof.
  unfold parse_text_to_dataframe. apply parse_lines_rows. constructor.
Qed.

End Rows.

Lemma data_pattern_group2 line g v :
  re_match data_pattern line = Some g ->
  lookup 2 g = Some v ->
  numeric_ok v.
Proof.
  intros Hm Hl.
  destruct (re_match_sound _ _ Hm) as [_ Hg].
  destruct (Hg _ _ Hl) as [q [Hq L]].
  simpl in Hq.
  assert (Eq : q = at_least 8 Digit).
  { repeat match goal with
           | H : _ \/ _ |- _ => destruct H
           | H : _ /\ _ |- _ => destruct H
           | H : False |- _ => destruct H
           end; try discriminate; assumption. }
  subst q. inversion L; subst. split; assumption.
Qed.

(** What [decode] may return, by the branch taken. *)
Lemma decode_cases g1 g2 g3 :
  decode g1 g2 g3 = (or_empty g1, or_empty g2, strip (or_empty g3)) \/
  exists d0 d1 rest,
    or_empty g1 <> [] /\ or_empty g2 = [] /\
    split1 (strip (or_empty g3)) = d0 :: d1 :: rest /\
    isdigit d0 = true /\ 8 <= length d0 /\
    decode g1 g2 g3 = (or_empty g1, d0, d1).
Proof.
  unfold decode.
  destruct (truthy (or_empty g1) && negb (truthy (or_empty g2))) eqn:E; [|left; reflexivity].
  apply andb_true_iff in E. destruct E as [E1 E2].
  apply truthy_iff in E1. apply negb_true_iff, truthy_false in E2.
  destruct (split1 (strip (or_empty g3))) as [|d0 [|d1 rest]] eqn:Es;
    try (left; reflexivity).
  destruct (isdigit d0 && (8 <=? length d0)) eqn:Ed; [|left; reflexivity].
  apply andb_true_iff in Ed. destruct Ed as [Ed1 Ed2]. apply Nat.leb_le in Ed2.
  right. exists d0, d1, rest. repeat split; assumption.
Qed.

Lemma data_row_inv c line r :
  In r (data_row c line) ->
  exists g,
    re_match data_pattern line = Some g /\
    (truthy (ID r) || truthy (Numeric_Code r) = true) /\
    (ID r, Numeric_Code r, Description r)
      = decode (lookup 1 g) (lookup 2 g) (lookup 3 g) /\
    Level_1 r = current_level_1 c /\ Level_2 r = current_level_2 c /\
    Level_3_Code r = current_level_3_code c /\ Level_3 r = current_level_3_desc c.
Proof.
  unfold data_row. destruct (re_match data_pattern line) as [g|]; [|intros []].
  destruct (decode (lookup 1 g) (lookup 2 g) (lookup 3 g)) as [[i n] d] eqn:Ed.
  destruct (truthy i || truthy n) eqn:E; [|intros []].
  intros [<-|[]]. exists g. simpl.
  split; [reflexivity|]. split; [exact E|]. split; [symmetry; exact Ed|].
  repeat split.
Qed.

(** A line that is not skipped has a first token, so [parts[0]] and
    [split(maxsplit=1)[0]] exist wherever the loop body reads them. *)
Lemma unskipped_line_has_token raw :
  skipped (strip raw) = false ->
  exists tok l, split1 (strip raw) = tok :: l /\ tok <> [].
Proof.
  unfold skipped. intro H. apply orb_false_iff in H. destruct H as [H _].
  apply orb_false_iff in H. destruct H as [H _].
  apply negb_false_iff, truthy_iff in H.
  destruct (@split1_first (strip raw)) as [tok [l [E [_ Ht]]]].
  - unfold lstrip. fold (lstrip (strip raw)).
    replace (lstrip (strip raw)) with (strip raw); [exact H|].
    destruct (strip raw) as [|c r] eqn:E; [reflexivity|].
    symmetry. apply dropwhile_fix. eapply strip_head; exact E.
  - exists tok, l. split; assumption.
Qed.

(** ** The shape of header lines *)

Ltac inv_lang :=
  repeat match goal with
         | H : lang (Cat _ _) _ |- _ => inversion H; subst; clear H
         | H : lang (Rep _ _ _) _ |- _ => inversion H; subst; clear H
         | H : lang (Atom _) _ |- _ => inversion H; subst; clear H
         end.

Lemma matches_lang r s :
  matches r s = true -> exists w s', s = w ++ s' /\ lang r w.
Proof.
  unfold matches. destruct (re_match r s) as [g|] eqn:E; [|discriminate].
  intros _. exact (proj1 (re_match_sound _ _ E)).
Qed.

Lemma nonempty_length (A : Type) (l : list A) : 1 <= length l -> l <> [].
Proof. destruct l; simpl; [lia|discriminate]. Qed.

(** A line the Level-1 pattern matches is three digits, whitespace and the rest. *)
Lemma level1_shape line :
  matches level1_pattern line = true ->
  exists t ws r,
    line = t ++ ws ++ r /\ length t = 3 /\
    Forall (fun c => isdecimal c = true) t /\
    ws <> [] /\ Forall (fun c => isspace c = true) ws.
Proof.
  intro H. destruct (matches_lang _ _ H) as [w [s' [-> L]]].
  unfold level1_pattern in L. simpl in L. unfold exactly, plus, star in L. inv_lang.
  match goal with
  | Hd : Forall _ ?t, Hs : Forall _ ?ws, H3 : 3 <= length ?t, H1 : 1 <= length ?ws
    |- context [(?t ++ ?ws ++ ?d) ++ s'] =>
      exists t, ws, (d ++ s');
      repeat split; [rewrite <- !app_assoc; reflexivity| |exact Hd
                    |apply nonempty_length; exact H1|exact Hs]
  end.
  match goal with
  | Hc : forall h, Some 3 = Some h -> _ |- _ => specialize (Hc 3 eq_refl); lia
  end.
Qed.

(** A line the Level-2 pattern matches is a first token, whitespace and the rest. *)
Lemma level2_shape line :
  matches level2_pattern line = true ->
  exists t ws r,
    line = t ++ ws ++ r /\ t <> [] /\
    Forall (fun c => nonspace c = true) t /\
    ws <> [] /\ Forall (fun c => isspace c = true) ws.
Proof.
  intro H. destruct (matches_lang _ _ H) as [w [s' [-> L]]].
  unfold level2_pattern in L. simpl in L. unfold exactly, plus, star in L. inv_lang.
  match goal with
  | Hd : Forall _ ?t, Hd2 : Forall _ ?t2, Hs : Forall (fun c => accepts Space c = true) ?ws,
    H3 : 3 <= length ?t, H1 : 1 <= length ?ws, Hc : accepts (Chr ?dot) ?c = true
    |- context [(?t ++ [?c] ++ ?t2 ++ ?ws ++ ?d) ++ s'] =>
      exists (t ++ [c] ++ t2), ws, (d ++ s');
      repeat split; [rewrite <- !app_assoc; reflexivity| | 
                    |apply nonempty_length; exact H1|exact Hs]
  end.
  - intro E. apply app_eq_nil in E. destruct E as [_ E]. discriminate.
  - repeat (apply Forall_app; split).
    + match goal with
      | Hd : Forall (fun c => accepts Digit c = true) ?t |- Forall _ ?t =>
          eapply Forall_impl; [|exact Hd]; intros a Ha; apply digit_nonspace; exact Ha
      end.
    + constructor; [|constructor].
      match goal with
      | Hc : accepts (Chr _) ?c = true |- _ =>
          simpl in Hc; apply Ascii.eqb_eq in Hc; subst; reflexivity
      end.
    + match goal with
      | Hd : Forall (fun c => accepts Digit c = true) ?t |- Forall _ ?t =>
          eapply Forall_impl; [|exact Hd]; intros a Ha; apply digit_nonspace; exact Ha
      end.
Qed.

(** The text a header line sets: what follows the first token and the
    whitespace after it.  The alternative of the source, the whole line, is
    for a line without a second part, which no stripped header line is. *)
Lemma header_text_token (t ws r : str) :
  t <> [] -> Forall (fun c => nonspace c = true) t ->
  ws <> [] -> Forall (fun c => isspace c = true) ws ->
  no_trail (t ++ ws ++ r) ->
  header_text (t ++ ws ++ r) = lstrip (dropwhile nonspace (t ++ ws ++ r)) /\
  header_text (t ++ ws ++ r) <> [] /\
  dropwhile nonspace (t ++ ws ++ r) = skipn (length t) (t ++ ws ++ r).
Proof.
  intros Ht Hall Hws Hsp Hnt.
  destruct (split1_token r Ht Hall Hws Hsp Hnt) as [Hs [Hne Hd]].
  unfold header_text. rewrite Hs, Hd.
  split; [symmetry; apply dropwhile_all; exact Hsp|].
  split; [exact Hne|].
  rewrite skipn_app, skipn_all, Nat.sub_diag. reflexivity.
Qed.

(** What one iteration does with a line that is neither skipped nor a header. *)
Lemma loop_body_data st raw :
  skipped (strip raw) = false ->
  is_level1 (strip raw) = false ->
  matches level2_pattern (strip raw) = false ->
  matches level3_pattern (strip raw) = false ->
  loop_body st raw = mkState (ctx st) (data st ++ data_row (ctx st) (strip raw)).
Proof.
  intros H0 H1 H2 H3. unfold loop_body. rewrite H0, H1, H2, H3. reflexivity.
Qed.

(** ** The data-row decoder *)

(** C1, as the code has it: when the primary match gives an id and no numeric
    code, and the stripped description starts with a token of eight or more
    digits, the token becomes the numeric code and the rest of the description,
    which is stripped, the description, provided there is a rest; a description
    that is that token alone is left as it is and the numeric code stays empty. *)
Theorem fallback_promotes_with_remainder (st : State) (raw : str) (g : groups) (tok : str) :
  skipped (strip raw) = false ->
  is_level1 (strip raw) = false ->
  matches level2_pattern (strip raw) = false ->
  matches level3_pattern (strip raw) = false ->
  re_match data_pattern (strip raw) = Some g ->
  or_empty (lookup 1 g) <> [] ->
  or_empty (lookup 2 g) = [] ->
  isdigit tok = true ->
  8 <= length tok ->
  let c := ctx st in
  let row n d :=
    mkRow (current_level_1 c) (current_level_2 c) (current_level_3_code c)
          (current_level_3_desc c) (or_empty (lookup 1 g)) n d in
  (forall rest,
      split1 (strip (or_empty (lookup 3 g))) = [tok; rest] ->
      loop_body st raw = mkState c (data st ++ [row tok rest]) /\ strip rest = rest) /\
  (split1 (strip (or_empty (lookup 3 g))) = [tok] ->
   loop_body st raw = mkState c (data st ++ [row [] (strip (or_empty (lookup 3 g)))])).
Proof.
  intros H0 H1 H2 H3 Hm Hid Hnum Hd Hlen c row.
  rewrite (loop_body_data st raw H0 H1 H2 H3). fold c.
  apply truthy_iff in Hid. pose proof (proj2 (truthy_false _) Hnum) as Hnum'.
  apply Nat.leb_le in Hlen.
  split.
  - intros rest Hs. split; [|eapply split1_rest_stripped; exact Hs].
    unfold data_row, decode. rewrite Hm, Hid, Hnum', Hs, Hd, Hlen. simpl.
    rewrite Hid. reflexivity.
  - intros Hs. unfold data_row, decode. rewrite Hm, Hid, Hnum', Hs. simpl.
    rewrite Hid, Hnum. reflexivity.
Qed.

(** The line [CADTX1 - X 40102345 Fee income] takes the first branch and the
    line [CADTX1 - X 40102345] the second. *)
Lemma fallback_promotes_with_remainder_witness :
  loop_body init_state (lit "CADTX1 - X 40102345 Fee income")
  = mkState init_context
      [mkRow [] [] [] [] (lit "CADTX1") (lit "40102345") (lit "Fee income")].
Proof.
  pose (raw := lit "CADTX1 - X 40102345 Fee income").
  pose (g := [(3, lit "40102345 Fee income"); (1, lit "CADTX1")]).
  assert (Hm : re_match data_pattern (strip raw) = Some g) by (vm_compute; reflexivity).
  assert (Hid : or_empty (lookup 1 g) <> []) by (vm_compute; discriminate).
  assert (Hlen : 8 <= length (lit "40102345")) by (vm_compute; lia).
  exact (proj1 (proj1 (@fallback_promotes_with_remainder init_state raw g (lit "40102345")
                  eq_refl eq_refl eq_refl eq_refl Hm Hid eq_refl eq_refl Hlen)
                (lit "Fee income") eq_refl)).
Defined.

(** C1 as stated fails: the description of [CADTX1 - X 40102345] is the one
    token [40102345], all digits and eight long, the primary match has an id
    and no numeric code, and the row keeps an empty numeric code. *)
Lemma single_token_not_promoted :
  let line := lit "CADTX1 - X 40102345" in
  exists g,
    re_match data_pattern (strip line) = Some g /\
    lookup 1 g = Some (lit "CADTX1") /\
    lookup 2 g = None /\
    split1 (strip (or_empty (lookup 3 g))) = [lit "40102345"] /\
    isdigit (lit "40102345") = true /\
    8 <= length (lit "40102345") /\
    parse_text_to_dataframe line
    = [mkRow [] [] [] [] (lit "CADTX1") [] (lit "40102345")] /\
    parse_text_to_dataframe line
    <> [mkRow [] [] [] [] (lit "CADTX1") (lit "40102345") []].
Proof.
  exists [(3, lit "40102345"); (1, lit "CADTX1")].
  repeat split; try (vm_compute; reflexivity); try (vm_compute; lia).
  vm_compute. discriminate.
Qed.

(** ** Invariants of the emitted rows *)

(** C2: every row of the table the parser returns, for any text, has a
    non-empty id or a non-empty numeric code. *)
Theorem rows_have_id_or_numeric_code (text : str) :
  Forall (fun r => ID r <> [] \/ Numeric_Code r <> []) (parse_text_to_dataframe text).
Proof.
  apply parse_rows. intros c line r Hr.
  destruct (data_row_inv _ _ _ Hr) as [g [_ [Hv _]]].
  apply orb_true_iff in Hv. rewrite !truthy_iff in Hv. exact Hv.
Qed.

Lemma decimal_isdigit (c : ascii) : isdecimal c = true -> isdigit_char c = true.
Proof. unfold isdigit_char. intros ->. reflexivity. Qed.

(** X21: a non-empty numeric code of a row of the table, for any text, is
    at least eight characters long and made of characters [str.isdigit]
    accepts: the decimal digits and, from the fallback, the superscript
    digits as well. *)
Theorem numeric_code_passes_isdigit (text : str) :
  Forall (fun r =>
            Numeric_Code r <> [] ->
            Forall (fun c => isdigit_char c = true) (Numeric_Code r) /\
            8 <= length (Numeric_Code r))
         (parse_text_to_dataframe text).
Proof.
  apply parse_rows. intros c line r Hr Hne.
  destruct (data_row_inv _ _ _ Hr) as [g [Hm [_ [Hd _]]]].
  destruct (decode_cases (lookup 1 g) (lookup 2 g) (lookup 3 g))
    as [E|[d0 [d1 [rest [_ [_ [_ [Hdig [Hlen E]]]]]]]]];
    rewrite E in Hd; inversion Hd as [[Hi Hn Hde]].
  - rewrite Hn in *. destruct (lookup 2 g) as [v|] eqn:El; [|contradiction].
    destruct (data_pattern_group2 _ Hm El) as [Hv Hl]. split; [|exact Hl].
    eapply Forall_impl; [|exact Hv]. intros a Ha. apply decimal_isdigit. exact Ha.
  - rewrite Hn. apply isdigit_spec in Hdig. split; [apply Hdig|exact Hlen].
Qed.

(** C4, the code at the input that breaks it: the line
    [CADTX1 - X 22222222 Fee] with the superscript two (code point 178) for
    each of its twos.  The token after the mark is eight superscript twos:
    the digit class of the pattern refuses it, [isdigit] accepts it, and the
    fallback makes it the numeric code of the row, which is then not made of
    decimal digits. *)
Theorem superscript_digits_are_promoted :
  let twos := repeat (ascii_of_nat 178) 8 in
  let line := lit "CADTX1 - X " ++ twos ++ lit " Fee" in
  matches (at_least 8 Digit) twos = false /\
  isdigit twos = true /\
  parse_text_to_dataframe line
  = [mkRow [] [] [] [] (lit "CADTX1") twos (lit "Fee")] /\
  ~ Forall (fun c => isdecimal c = true) twos.
Proof.
  split; [vm_compute; reflexivity|]. split; [vm_compute; reflexivity|].
  split; [vm_compute; reflexivity|].
  intro H. apply Forall_inv in H. vm_compute in H. discriminate.
Qed.

(** ** Scenario D *)

(** C5: after the three header lines, read from the empty context, the data
    line emits exactly the one row of the scenario. *)
Theorem scenario_D :
  let l1 := lit "001 Net Revenue" in
  let l2 := lit "001.1 Service Revenue" in
  let l3 := lit "4010 Gross Service Revenue" in
  let l4 := lit "CADTX123 - 40102345 _X_ Fee income" in
  let row :=
    mkRow (lit "Net Revenue") (lit "Service Revenue") (lit "4010")
          (lit "Gross Service Revenue") (lit "CADTX123") (lit "40102345")
          (lit "Fee income") in
  let st3 := parse_lines [l1; l2; l3] init_state in
  data st3 = [] /\
  loop_body st3 l4 = mkState (ctx st3) [row] /\
  parse_text_to_dataframe (join_nl [l1; l2; l3; l4]) = [row].
Proof.
  vm_compute. repeat split.
Qed.

(** ** The skip markers *)

(** C10: a line with [PAGE] or [Deloitte India Management Reporting]
    anywhere in it leaves the state as it is, context and table, whatever
    else the line looks like. *)
Theorem marker_line_is_skipped (st : State) (raw : str) :
  contains (lit "PAGE") raw = true \/
  contains (lit "Deloitte India Management Reporting") raw = true ->
  loop_body st raw = st.
Proof.
  intro H. unfold loop_body.
  assert (Hs : skipped (strip raw) = true); [|rewrite Hs; reflexivity].
  unfold skipped. destruct H as [H|H].
  - eapply contains_strip in H;
      [rewrite H, orb_true_r; reflexivity| | | |];
      [reflexivity|reflexivity|vm_compute; reflexivity|reflexivity].
  - eapply contains_strip in H; [rewrite H; apply orb_true_r| | | |];
      [reflexivity|reflexivity|vm_compute; reflexivity|reflexivity].
Qed.

(** The line [001 PAGE 2] is a Level-1 header by the patterns, and the line
    [CADTX1 - 12345678 X PAGE] a data row; both are skipped. *)
Lemma marker_line_is_skipped_witness :
  is_level1 (lit "001 PAGE 2") = true /\
  data_row init_context (lit "CADTX1 - 12345678 X PAGE") <> [] /\
  loop_body init_state (lit "001 PAGE 2") = init_state /\
  loop_body init_state (lit "CADTX1 - 12345678 X PAGE") = init_state.
Proof.
  split; [vm_compute; reflexivity|].
  split; [vm_compute; discriminate|].
  split; apply marker_line_is_skipped; left; vm_compute; reflexivity.
Defined.

(** The markers are matched as they are written: [page] in lower case is
    not a marker, and the line is read as the Level-1 header it is. *)
Lemma lowercase_marker_is_not_skipped :
  loop_body init_state (lit "001 page 2")
  = mkState (mkContext (lit "page 2") [] [] []) [].
Proof. vm_compute. reflexivity. Qed.

(** ** The hierarchy state machine *)

(** C3: a Level-1 header line sets level 1, to the text after the three
    digits and the whitespace, and empties level 2 and both level-3 fields; a
    Level-2 header line sets level 2, to the text after the first token and
    the whitespace, empties both level-3 fields and keeps level 1.  Neither
    adds a row. *)
Theorem header_lines_reset_sublevels (st : State) (raw : str) :
  skipped (strip raw) = false ->
  let line := strip raw in
  (is_level1 line = true ->
   loop_body st raw = mkState (mkContext (header_text line) [] [] []) (data st) /\
   header_text line = lstrip (skipn 3 line) /\ header_text line <> []) /\
  (matches level2_pattern line = true ->
   loop_body st raw
   = mkState (mkContext (current_level_1 (ctx st)) (header_text line) [] []) (data st) /\
   header_text line = lstrip (dropwhile nonspace line) /\ header_text line <> []).
Proof.
  intros H0 line. subst line. pose proof (strip_no_trail raw) as Hnt.
  unfold loop_body. rewrite H0. split; intro H.
  - rewrite H. split; [reflexivity|].
    unfold is_level1 in H. apply andb_true_iff in H. destruct H as [H _].
    apply andb_true_iff in H. destruct H as [H _].
    destruct (level1_shape _ H) as [t [ws [r [E [Hl [Hd [Hws Hsp]]]]]]].
    rewrite E in *.
    assert (Ht : t <> []) by (destruct t; [discriminate|discriminate]).
    assert (Hall : Forall (fun c => nonspace c = true) t).
    { eapply Forall_impl; [|exact Hd]. intros a Ha. apply digit_nonspace; exact Ha. }
    destruct (header_text_token r Ht Hall Hws Hsp Hnt) as [E1 [E2 E3]].
    rewrite <- Hl, <- E3. split; assumption.
  - unfold is_level1. rewrite H. rewrite andb_false_r. simpl.
    split; [reflexivity|].
    destruct (level2_shape _ H) as [t [ws [r [E [Ht [Hall [Hws Hsp]]]]]]].
    rewrite E in *.
    destruct (header_text_token r Ht Hall Hws Hsp Hnt) as [E1 [E2 _]].
    split; assumption.
Qed.

Lemma header_lines_reset_sublevels_witness :
  let st := mkState (mkContext (lit "a") (lit "b") (lit "c") (lit "d")) [] in
  loop_body st (lit "001 Net Revenue")
  = mkState (mkContext (lit "Net Revenue") [] [] []) [] /\
  loop_body st (lit "001.1 Service Revenue")
  = mkState (mkContext (lit "a") (lit "Service Revenue") [] []) [].
Proof.
  intro st. split.
  - exact (proj1 (proj1 (@header_lines_reset_sublevels st (lit "001 Net Revenue") eq_refl)
                   eq_refl)).
  - exact (proj1 (proj2 (@header_lines_reset_sublevels st (lit "001.1 Service Revenue")
                           eq_refl)
                   eq_refl)).
Defined.

(** ** Text extraction *)

Section Extraction.

Lemma key_lt_false_iff (a b : Block) : key_lt b a = false <-> block_le a b.
Proof.
  unfold key_lt, block_le.
  destruct (Qeq_bool (y0 b) (y0 a)) eqn:E.
  - apply Qeq_bool_iff in E. rewrite negb_false_iff, Qle_bool_iff. split.
    + intro H. right. split; [symmetry; exact E|exact H].
    + intros [H|[_ H]]; [lra|exact H].
  - apply Qeq_bool_neq in E. rewrite negb_false_iff, Qle_bool_iff. split.
    + intro H. left. apply Qle_lteq in H. destruct H as [H|H]; [exact H|].
      exfalso. apply E. symmetry. exact H.
    + intros [H|[H _]]; lra.
Qed.

Lemma key_lt_block_le (a b : Block) : key_lt a b = true -> block_le a b.
Proof.
  unfold key_lt, block_le.
  destruct (Qeq_bool (y0 a) (y0 b)) eqn:E; rewrite negb_true_iff; intro H.
  - apply Qeq_bool_iff in E. right. split; [exact E|].
    destruct (Qlt_le_dec (x0 b) (x0 a)) as [L|L]; [|exact L].
    apply Qlt_le_weak in L. apply Qle_bool_iff in L. congruence.
  - left. destruct (Qlt_le_dec (y0 a) (y0 b)) as [L|L]; [exact L|].
    apply Qle_bool_iff in L. congruence.
Qed.

Lemma block_le_trans (a b c : Block) : block_le a b -> block_le b c -> block_le a c.
Proof.
  unfold block_le. intros [H1|[H1 H1']] [H2|[H2 H2']].
  - left; lra.
  - left; lra.
  - left; lra.
  - right; split; lra.
Qed.

Lemma insert_block_perm b l : Permutation (insert_block b l) (b :: l).
Proof.
  induction l as [|c l IH]; simpl; [apply Permutation_refl|].
  destruct (key_lt c b); [|apply Permutation_refl].
  apply perm_trans with (c :: b :: l); [apply perm_skip; exact IH|apply perm_swap].
Qed.

Lemma sort_blocks_perm l : Permutation (sort_blocks l) l.
Proof.
  induction l as [|b l IH]; simpl; [apply perm_nil|].
  apply perm_trans with (b :: sort_blocks l);
    [apply insert_block_perm|apply perm_skip; exact IH].
Qed.

Lemma insert_block_hd b c l :
  block_le c b -> HdRel block_le c l -> HdRel block_le c (insert_block b l).
Proof.
  intros Hcb Hl. destruct l as [|d l]; simpl; [constructor; exact Hcb|].
  destruct (key_lt d b); constructor; [inversion Hl; assumption|exact Hcb].
Qed.

Lemma insert_block_sorted b l :
  Sorted block_le l -> Sorted block_le (insert_block b l).
Proof.
  induction 1 as [|c l Hs IH Hh]; simpl; [repeat constructor|].
  destruct (key_lt c b) eqn:E.
  - constructor; [exact IH|].
    apply insert_block_hd; [apply key_lt_block_le; exact E|exact Hh].
  - constructor; [constructor; assumption|].
    constructor. apply key_lt_false_iff. exact E.
Qed.

(** The sorted blocks are the blocks of the page, top to bottom and, on one
    level, left to right. *)
Lemma sort_blocks_sorted l : StronglySorted block_le (sort_blocks l).
Proof.
  apply Sorted_StronglySorted; [intros a b c; apply block_le_trans|].
  induction l as [|b l IH]; simpl; [constructor|].
  apply insert_block_sorted. exact IH.
Qed.

Lemma page_fragments_spec acc page :
  page_fragments acc page = acc ++ map fragment (sort_blocks page).
Proof.
  unfold page_fragments. generalize (sort_blocks page) as l. intro l.
  revert acc; induction l as [|b l IH]; intro acc; simpl.
  - symmetry; apply app_nil_r.
  - rewrite IH, <- app_assoc. reflexivity.
Qed.

Lemma fold_page_fragments pages :
  forall acc,
    fold_left page_fragments pages acc
    = acc ++ flat_map (fun p => map fragment (sort_blocks p)) pages.
Proof.
  induction pages as [|p pages IH]; intro acc; simpl.
  - symmetry; apply app_nil_r.
  - rewrite IH, page_fragments_spec, <- app_assoc. reflexivity.
Qed.

Lemma full_text_of_spec pages :
  full_text_of pages = flat_map (fun p => map fragment (sort_blocks p)) pages.
Proof. unfold full_text_of. apply fold_page_fragments. Qed.


(** C6, as the code has it: for a readable document the extractor returns the
    fragments joined by newlines; the fragments are the stripped texts of all
    the blocks, none left out, page after page in page order and, within a
    page, top to bottom and left to right; every fragment is stripped.  An
    empty fragment is kept as it is. *)
Theorem extracted_fragments (w : World) (pdf_path : str) (pages : list Page) :
  pdf_at w pdf_path = Some (Readable pages) ->
  fst (extract_text_from_pdf pdf_path w) = Some (join_nl (full_text_of pages)) /\
  Forall (fun f => strip f = f) (full_text_of pages) /\
  full_text_of pages = flat_map (fun p => map fragment (sort_blocks p)) pages /\
  length (full_text_of pages) = length (concat pages) /\
  (forall p, In p pages ->
             Permutation (sort_blocks p) p /\ StronglySorted block_le (sort_blocks p)).
Proof.
  intro H. unfold extract_text_from_pdf. rewrite H. simpl.
  split; [reflexivity|]. rewrite full_text_of_spec.
  split; [|split; [reflexivity|split]].
  - apply Forall_forall. intros f Hf. apply in_flat_map in Hf.
    destruct Hf as [p [_ Hf]]. apply in_map_iff in Hf. destruct Hf as [b [<- _]].
    apply strip_idem.
  - clear H. induction pages as [|p pages IH]; simpl; [reflexivity|].
    rewrite !length_app, IH, length_map. f_equal.
    apply Permutation_length, sort_blocks_perm.
  - intros p _. split; [apply sort_blocks_perm|apply sort_blocks_sorted].
Qed.

Lemma extracted_fragments_witness :
  fst (extract_text_from_pdf (lit "in.pdf") two_block_world)
  = Some (newline :: lit "a").
Proof.
  exact (proj1 (@extracted_fragments two_block_world (lit "in.pdf") _ eq_refl)).
Defined.

(** C6 as stated fails: a readable document with a block of blanks above a
    block [a] gives the fragments [""] and ["a"]; the empty one is passed on,
    as the empty first line of the text. *)
Lemma blank_block_is_not_dropped :
  let pages := [[mkBlock 0 1 (lit "a"); mkBlock 0 0 (lit " ")]] in
  pdf_at two_block_world (lit "in.pdf") = Some (Readable pages) /\
  full_text_of pages = [[]; lit "a"] /\
  ~ Forall (fun f => f <> []) (full_text_of pages) /\
  fst (extract_text_from_pdf (lit "in.pdf") two_block_world) = Some (newline :: lit "a").
Proof.
  split; [reflexivity|]. split; [vm_compute; reflexivity|].
  split; [|vm_compute; reflexivity].
  intro H. apply Forall_inv in H. apply H. vm_compute. reflexivity.
Qed.

End Extraction.

(** ** The conversion entry point *)


(** Extraction only prints: the files and the way [to_excel] fails stay. *)
Lemma extract_keeps_world pdf_path w :
  to_excel_fault (snd (extract_text_from_pdf pdf_path w)) = to_excel_fault w /\
  file_at (snd (extract_text_from_pdf pdf_path w)) = file_at w /\
  foreign_pdf (snd (extract_text_from_pdf pdf_path w)) = foreign_pdf w.
Proof.
  unfold extract_text_from_pdf.
  destruct (pdf_at w pdf_path) as [[pages|e]|]; repeat split.
Qed.

(** C7, the code at the inputs that break it: the document at [in.pdf]
    gives a row and [to_excel] raises for [out.xlsx].  The entry point
    returns success all the same, and at [out.xlsx] there is no table:
    nothing when nothing was written, a partial workbook when the write
    broke off. *)
Theorem success_is_returned_without_the_table :
  let table := [mkRow [] [] [] [] (lit "CADTX1") (lit "12345678") (lit "Fee")] in
  let out1 := convert_pdf_to_excel (lit "in.pdf") (lit "out.xlsx") read_only_world in
  let out2 := convert_pdf_to_excel (lit "in.pdf") (lit "out.xlsx") full_disk_world in
  fst out1 = (true, lit "Successfully converted PDF to Excel file: 'out.xlsx'") /\
  file_at (snd out1) (lit "out.xlsx") = None /\
  fst out2 = (true, lit "Successfully converted PDF to Excel file: 'out.xlsx'") /\
  file_at (snd out2) (lit "out.xlsx") = Some Partial /\
  fst (extract_text_from_pdf (lit "in.pdf") read_only_world)
  = Some (lit "CADTX1 - 12345678 X Fee") /\
  parse_text_to_dataframe (lit "CADTX1 - 12345678 X Fee") = table.
Proof.
  vm_compute. repeat split.
Qed.

(** C9: when the text extracted gives a non-empty table and [to_excel]
    raises, the entry point still returns success with the message that
    starts [Successfully converted]; the error is only printed. *)
Theorem save_failure_returns_success
        (pdf_path excel_path : str) (w : World) (t : str) (ft : Fault) :
  fst (extract_text_from_pdf pdf_path w) = Some t ->
  t <> [] ->
  parse_text_to_dataframe t <> [] ->
  to_excel_fault w excel_path = Some ft ->
  let out := convert_pdf_to_excel pdf_path excel_path w in
  fst out = (true, lit "Successfully converted PDF to Excel file: '" ++ excel_path ++ lit "'") /\
  startswith (lit "Successfully converted") (snd (fst out)) = true /\
  stdout (snd out)
  = stdout (snd (extract_text_from_pdf pdf_path w))
    ++ [lit "An error occurred while saving to Excel: " ++ fault_message ft].
Proof.
  intros Hx Ht Hp He out. subst out. unfold convert_pdf_to_excel.
  destruct (extract_keeps_world pdf_path w) as [Hte _].
  destruct (extract_text_from_pdf pdf_path w) as [raw w1]. simpl in *. subst raw.
  simpl. apply truthy_iff in Ht. rewrite Ht. simpl.
  destruct (parse_text_to_dataframe t) as [|r rows]; [contradiction|].
  unfold save_to_excel. rewrite Hte, He. simpl.
  repeat split. destruct (leaves_partial ft); reflexivity.
Qed.

Lemma save_failure_returns_success_witness :
  fst (convert_pdf_to_excel (lit "in.pdf") (lit "out.xlsx") read_only_world)
  = (true, lit "Successfully converted PDF to Excel file: 'out.xlsx'").
Proof.
  assert (Ht : lit "CADTX1 - 12345678 X Fee" <> []) by (vm_compute; discriminate).
  assert (Hp : parse_text_to_dataframe (lit "CADTX1 - 12345678 X Fee") <> [])
    by (vm_compute; discriminate).
  exact (proj1 (@save_failure_returns_success (lit "in.pdf") (lit "out.xlsx")
                  read_only_world _ (mkFault (lit "Permission denied") false)
                  eq_refl Ht Hp eq_refl)).
Defined.

(** * More of the code *)

(** ** The matcher finds every match *)

Lemma span_ge a hi (w s' : str) :
  Forall (fun c => accepts a c = true) w ->
  (forall h, hi = Some h -> length w <= h) ->
  length w <= span a hi (w ++ s').
Proof.
  intro Hw. revert hi. induction Hw as [|c w Hc Hw IH]; intros hi Hcap; simpl; [lia|].
  destruct hi as [[|h]|].
  - specialize (Hcap 0 eq_refl). simpl in Hcap. lia.
  - rewrite Hc. apply le_n_S. apply IH. intros h' E. inversion E; subst.
    specialize (Hcap (S h') eq_refl). simpl in Hcap. simpl. lia.
  - rewrite Hc. apply le_n_S. apply IH. intros h' E. discriminate.
Qed.

Lemma skipn_length_app (w s' : str) : skipn (length w) (w ++ s') = s'.
Proof. induction w as [|c w IH]; simpl; [reflexivity|exact IH]. Qed.

(** A word of the pattern at the start of the input is among the matches. *)
Lemma run_complete r w :
  lang r w -> forall s' g, exists g', In (s', g') (run r (w ++ s') g).
Proof.
  induction 1 as [|a c Ha|a lo hi w Hw Hlo Hhi|r w L IH|r|i r w L IH|r1 r2 w1 w2 L1 IH1 L2 IH2];
    intros s' g; simpl.
  - exists g. left. reflexivity.
  - rewrite Ha. exists g. left. reflexivity.
  - exists g. apply in_map_iff. exists (length w). split.
    + rewrite skipn_length_app. reflexivity.
    + apply in_counts. split; [exact Hlo|]. apply span_ge; assumption.
  - destruct (IH s' g) as [g' Hin]. exists g'. apply in_or_app. left. exact Hin.
  - exists g. apply in_or_app. right. left. reflexivity.
  - destruct (IH s' g) as [g' Hin].
    exists ((i, consumed (w ++ s') s') :: g'). apply in_map_iff.
    exists (s', g'). split; [reflexivity|exact Hin].
  - destruct (IH1 (w2 ++ s') g) as [g1 Hin1]. destruct (IH2 s' g1) as [g2 Hin2].
    exists g2. rewrite <- app_assoc. apply in_flat_map.
    exists (w2 ++ s', g1). split; [exact Hin1|exact Hin2].
Qed.

(** [pattern.match(s)] succeeds exactly when [s] starts with a word of the
    pattern. *)
Lemma matches_iff r s :
  matches r s = true <-> exists w s', s = w ++ s' /\ lang r w.
Proof.
  split; [apply matches_lang|].
  intros [w [s' [-> L]]]. destruct (run_complete L s' []) as [g' Hin].
  unfold matches, re_match. destruct (run r (w ++ s') []); [contradiction|reflexivity].
Qed.

Lemma all_digits_length (n : nat) (t : str) :
  Forall (fun c => isdecimal c = true) t -> length t = n ->
  lang (exactly n Digit) t.
Proof.
  intros Hd Hl. constructor; [exact Hd|lia|]. intros h E. inversion E; lia.
Qed.

(** ** The three header tests in plain terms *)

Lemma digits_space_pattern n line :
  matches (cat [exactly n Digit; plus Space; star Dot]) line = true
  <-> digits_then_space n line.
Proof.
  rewrite matches_iff. simpl. split.
  - intros [w0 [s' [-> L]]]. unfold exactly, plus, star in L. inv_lang.
    match goal with
    | Hd : Forall _ ?t, Hs : Forall (fun c => accepts Space c = true) ?ws,
      Hn : n <= length ?t, H1 : 1 <= length ?ws, Hc : forall h, Some n = Some h -> _
      |- digits_then_space n ((?t ++ ?ws ++ ?d) ++ s') =>
        destruct ws as [|w ws]; [simpl in H1; lia|];
        exists t, w, (ws ++ d ++ s'); repeat split;
        [rewrite <- !app_assoc; reflexivity
        |specialize (Hc n eq_refl); lia|exact Hd|inversion Hs; assumption]
    end.
  - intros [t [w [rest [-> [Hl [Hd Hw]]]]]].
    exists (t ++ [w] ++ []), rest. split; [rewrite <- !app_assoc; reflexivity|].
    constructor; [apply all_digits_length; assumption|].
    constructor.
    + constructor; [repeat constructor; exact Hw|simpl; lia|discriminate].
    + constructor; [constructor|simpl; lia|discriminate].
Qed.

Lemma level2_plain line :
  matches level2_pattern line = true <->
  exists t ds w rest,
    line = t ++ "."%char :: ds ++ w :: rest /\ length t = 3 /\
    Forall (fun c => isdecimal c = true) t /\
    ds <> [] /\ Forall (fun c => isdecimal c = true) ds /\ isspace w = true.
Proof.
  rewrite matches_iff. unfold level2_pattern. simpl. split.
  - intros [w0 [s' [-> L]]]. unfold exactly, plus, star in L. inv_lang.
    match goal with
    | Hd : Forall (fun c => accepts Digit c = true) ?t, H3 : 3 <= length ?t,
      Hd2 : Forall (fun c => accepts Digit c = true) ?t2, H2 : 1 <= length ?t2,
      Hs : Forall (fun c => accepts Space c = true) ?ws, H1 : 1 <= length ?ws,
      Hc : accepts (Chr _) ?c = true, Hcap : forall h, Some 3 = Some h -> _
      |- _ =>
        destruct ws as [|w ws]; [simpl in H1; lia|];
        simpl in Hc; apply Ascii.eqb_eq in Hc; subst c;
        specialize (Hcap 3 eq_refl);
        exists t, t2, w; eexists; split;
        [repeat rewrite <- app_assoc; simpl; repeat rewrite <- app_assoc; reflexivity|];
        split; [lia|]; split; [exact Hd|];
        split; [apply nonempty_length; exact H2|];
        split; [exact Hd2|inversion Hs; assumption]
    end.
  - intros [t [ds [w [rest [-> [Hl [Hd [Hne [Hds Hw]]]]]]]]].
    exists (t ++ ["."%char] ++ ds ++ [w] ++ []), rest.
    split; [repeat rewrite <- app_assoc; simpl; repeat rewrite <- app_assoc; reflexivity|].
    constructor; [apply all_digits_length; assumption|].
    constructor; [constructor; reflexivity|].
    constructor.
    + constructor; [exact Hds| |discriminate].
      destruct ds; [contradiction|simpl; lia].
    + constructor.
      * constructor; [repeat constructor; exact Hw|simpl; lia|discriminate].
      * constructor; [constructor|simpl; lia|discriminate].
Qed.

Lemma nth_error_after (t : str) c rest :
  nth_error (t ++ c :: rest) (length t) = Some c.
Proof. induction t as [|d t IH]; simpl; [reflexivity|exact IH]. Qed.

(** The fourth character tells the three kinds of header apart. *)
Lemma level1_fourth line :
  matches level1_pattern line = true ->
  exists c, nth_error line 3 = Some c /\ isspace c = true.
Proof.
  intro H. apply (digits_space_pattern 3) in H.
  destruct H as [t [w [rest [-> [Hl [_ Hw]]]]]].
  exists w. split; [rewrite <- Hl; apply nth_error_after|exact Hw].
Qed.

Lemma level2_fourth line :
  matches level2_pattern line = true -> nth_error line 3 = Some "."%char.
Proof.
  intro H. apply level2_plain in H.
  destruct H as [t [ds [w [rest [-> [Hl _]]]]]].
  rewrite <- Hl. apply nth_error_after.
Qed.

Lemma level3_fourth line :
  matches level3_pattern line = true ->
  exists c, nth_error line 3 = Some c /\ isdecimal c = true.
Proof.
  intro H. apply (digits_space_pattern 4) in H.
  destruct H as [t [w [rest [-> [Hl [Hd _]]]]]].
  destruct t as [|d1 [|d2 [|d3 [|d4 [|d5 t]]]]]; try discriminate.
  exists d4. split; [reflexivity|].
  rewrite Forall_forall in Hd. apply Hd. simpl. tauto.
Qed.

Lemma space_not_digit c : isspace c = true -> isdecimal c = false.
Proof.
  intro H. destruct (isdecimal c) eqn:E; [|reflexivity].
  apply digit_nonspace in E. unfold nonspace in E. rewrite H in E. discriminate.
Qed.

Lemma level_tests_exclusive line :
  (matches level1_pattern line = true -> matches level2_pattern line = false) /\
  (matches level1_pattern line = true -> matches level3_pattern line = false) /\
  (matches level2_pattern line = true -> matches level3_pattern line = false).
Proof.
  split; [|split]; intro H.
  - destruct (matches level2_pattern line) eqn:E; [|reflexivity].
    destruct (level1_fourth _ H) as [c [Hn Hc]].
    rewrite (level2_fourth _ E) in Hn. inversion Hn; subst. discriminate.
  - destruct (matches level3_pattern line) eqn:E; [|reflexivity].
    destruct (level1_fourth _ H) as [c [Hn Hc]].
    destruct (level3_fourth _ E) as [d [Hn' Hd]].
    rewrite Hn in Hn'. inversion Hn'; subst.
    rewrite (space_not_digit _ Hc) in Hd. discriminate.
  - destruct (matches level3_pattern line) eqn:E; [|reflexivity].
    destruct (level3_fourth _ E) as [d [Hn' Hd]].
    rewrite (level2_fourth _ H) in Hn'. inversion Hn'; subst. discriminate.
Qed.

(** X1: the three header patterns read in plain terms: Level 1 is three
    digits and a whitespace character, Level 3 four digits and a whitespace
    character, Level 2 three digits, a dot, one or more digits and a
    whitespace character, each at the start of the line. *)
Theorem header_patterns_in_plain_terms (line : str) :
  (matches level1_pattern line = true <-> digits_then_space 3 line) /\
  (matches level3_pattern line = true <-> digits_then_space 4 line) /\
  (matches level2_pattern line = true <->
   exists t ds w rest,
     line = t ++ "."%char :: ds ++ w :: rest /\ length t = 3 /\
     Forall (fun c => isdecimal c = true) t /\
     ds <> [] /\ Forall (fun c => isdecimal c = true) ds /\ isspace w = true).
Proof.
  split; [apply (digits_space_pattern 3)|].
  split; [apply (digits_space_pattern 4)|apply level2_plain].
Qed.

(** X2: no line passes two of the three header tests, so the two negated
    tests of the Level-1 branch change nothing: the branch is taken exactly
    when the Level-1 pattern matches. *)
Theorem header_tests_exclude_each_other (line : str) :
  is_level1 line = matches level1_pattern line /\
  (matches level1_pattern line = true -> matches level2_pattern line = false) /\
  (matches level1_pattern line = true -> matches level3_pattern line = false) /\
  (matches level2_pattern line = true -> matches level3_pattern line = false).
Proof.
  destruct (level_tests_exclusive line) as [H12 [H13 H23]].
  split; [|split; [exact H12|split; [exact H13|exact H23]]].
  unfold is_level1. destruct (matches level1_pattern line) eqn:E; [|reflexivity].
  rewrite (H12 eq_refl), (H13 eq_refl). reflexivity.
Qed.

Lemma header_tests_exclude_each_other_witness :
  matches level2_pattern (lit "001 Net Revenue") = false /\
  matches level3_pattern (lit "001.1 Service Revenue") = false.
Proof.
  split.
  - exact (proj1 (proj2 (header_tests_exclude_each_other (lit "001 Net Revenue"))) eq_refl).
  - exact (proj2 (proj2 (proj2 (header_tests_exclude_each_other (lit "001.1 Service Revenue"))))
             eq_refl).
Defined.

(** ** The Level-3 branch *)

(** The two parts of a stripped Level-3 header line. *)
Lemma level3_split line :
  no_trail line -> matches level3_pattern line = true ->
  split1 line = [firstn 4 line; lstrip (skipn 4 line)] /\
  Forall (fun c => isdecimal c = true) (firstn 4 line) /\
  length (firstn 4 line) = 4 /\
  lstrip (skipn 4 line) <> [].
Proof.
  intros Hnt H. apply (digits_space_pattern 4) in H.
  destruct H as [t [w [rest [-> [Hl [Hd Hw]]]]]].
  assert (Ht : t <> []) by (destruct t; [discriminate|discriminate]).
  assert (Hall : Forall (fun c => nonspace c = true) t).
  { eapply Forall_impl; [|exact Hd]. intros a Ha. apply digit_nonspace; exact Ha. }
  assert (Hws : [w] <> []) by discriminate.
  assert (Hsp : Forall (fun c => isspace c = true) [w]) by (repeat constructor; exact Hw).
  change (t ++ w :: rest) with (t ++ [w] ++ rest) in *.
  destruct (split1_token rest Ht Hall Hws Hsp Hnt) as [Hs [Hne _]].
  assert (Hf : firstn 4 (t ++ [w] ++ rest) = t).
  { rewrite <- Hl. rewrite firstn_app, firstn_all, Nat.sub_diag. simpl. apply app_nil_r. }
  assert (Hk : lstrip (skipn 4 (t ++ [w] ++ rest)) = lstrip rest).
  { rewrite <- Hl. rewrite skipn_length_app. simpl. unfold lstrip. simpl. rewrite Hw.
    reflexivity. }
  rewrite Hf, Hk. repeat split; assumption.
Qed.

(** X3: a Level-3 header line sets the level-3 code to its four digits and
    the level-3 text to what follows the whitespace after them, which is
    never empty; it keeps levels 1 and 2 and adds no row. *)
Theorem level3_header_sets_code_and_text (st : State) (raw : str) :
  skipped (strip raw) = false ->
  matches level3_pattern (strip raw) = true ->
  let line := strip raw in
  loop_body st raw
  = mkState (mkContext (current_level_1 (ctx st)) (current_level_2 (ctx st))
                       (firstn 4 line) (lstrip (skipn 4 line)))
            (data st) /\
  Forall (fun c => isdecimal c = true) (firstn 4 line) /\
  length (firstn 4 line) = 4 /\
  lstrip (skipn 4 line) <> [].
Proof.
  intros H0 H3 line. subst line.
  destruct (level3_split (strip_no_trail raw) H3) as [Hs [Hd [Hl Hne]]].
  split; [|repeat split; assumption].
  destruct (level_tests_exclusive (strip raw)) as [_ [H13 H23]].
  unfold loop_body, is_level1. rewrite H0, H3.
  destruct (matches level1_pattern (strip raw)) eqn:E1;
    [rewrite (H13 eq_refl) in H3; discriminate|].
  destruct (matches level2_pattern (strip raw)) eqn:E2;
    [rewrite (H23 eq_refl) in H3; discriminate|].
  simpl. rewrite Hs. reflexivity.
Qed.

Lemma level3_header_sets_code_and_text_witness :
  loop_body (mkState (mkContext (lit "a") (lit "b") [] []) [])
            (lit "  4010   Gross Service Revenue ")
  = mkState (mkContext (lit "a") (lit "b") (lit "4010") (lit "Gross Service Revenue")) [].
Proof.
  exact (proj1 (@level3_header_sets_code_and_text
                  (mkState (mkContext (lit "a") (lit "b") [] []) [])
                  (lit "  4010   Gross Service Revenue ") eq_refl eq_refl)).
Defined.

(** ** What the loop does to the table *)

Lemma data_row_length c line : length (data_row c line) <= 1.
Proof.
  unfold data_row. destruct (re_match data_pattern line) as [g|]; [|simpl; lia].
  destruct (decode (lookup 1 g) (lookup 2 g) (lookup 3 g)) as [[i n] d].
  destruct (truthy i || truthy n); simpl; lia.
Qed.

(** One line leaves the rows there are and adds the rows of [data_row], if it
    gets to that branch. *)
Lemma loop_body_appends st raw :
  exists new,
    data (loop_body st raw) = data st ++ new /\ length new <= 1 /\
    (forall r, In r new -> In r (data_row (ctx st) (strip raw)) /\
                           is_header (strip raw) = false /\
                           skipped (strip raw) = false).
Proof.
  unfold loop_body, is_header.
  destruct (skipped (strip raw));
    [exists []; rewrite app_nil_r; repeat split; simpl; try lia; contradiction|].
  destruct (is_level1 (strip raw));
    [exists []; rewrite app_nil_r; repeat split; simpl; try lia; contradiction|].
  destruct (matches level2_pattern (strip raw));
    [exists []; rewrite app_nil_r; repeat split; simpl; try lia; contradiction|].
  destruct (matches level3_pattern (strip raw));
    [exists []; rewrite app_nil_r; repeat split; simpl; try lia; contradiction|].
  exists (data_row (ctx st) (strip raw)). simpl.
  split; [reflexivity|]. split; [apply data_row_length|]. intros r Hr. repeat split. exact Hr.
Qed.

Lemma parse_lines_app l1 l2 st :
  parse_lines (l1 ++ l2) st = parse_lines l2 (parse_lines l1 st).
Proof. unfold parse_lines. apply fold_left_app. Qed.

Lemma parse_lines_appends lines :
  forall st, exists new,
    data (parse_lines lines st) = data st ++ new /\ length new <= length lines.
Proof.
  induction lines as [|l lines IH]; intro st; simpl.
  - exists []. rewrite app_nil_r. split; [reflexivity|simpl; lia].
  - destruct (loop_body_appends st l) as [n1 [E1 [L1 _]]].
    destruct (IH (loop_body st l)) as [n2 [E2 L2]].
    exists (n1 ++ n2). rewrite E2, E1, <- app_assoc. split; [reflexivity|].
    rewrite length_app. lia.
Qed.

(** X4: the loop only ever appends to the table: the rows of the lines read
    so far stay as they are, in their order, whatever lines follow, and the
    lines that follow add at most one row each. *)
Theorem later_lines_only_append (l1 l2 : list str) (st : State) :
  exists new,
    data (parse_lines (l1 ++ l2) st) = data (parse_lines l1 st) ++ new /\
    length new <= length l2.
Proof.
  rewrite parse_lines_app. apply parse_lines_appends.
Qed.

(** ** The fields of the rows *)

Lemma data_pattern_group1 line g v :
  re_match data_pattern line = Some g ->
  lookup 1 g = Some v ->
  cadt_id v.
Proof.
  intros Hm Hl.
  destruct (re_match_sound _ _ Hm) as [_ Hg].
  destruct (Hg _ _ Hl) as [q [Hq L]].
  simpl in Hq.
  assert (Eq : q = Cat (word "CADT") (plus Word)).
  { repeat match goal with
           | H : _ \/ _ |- _ => destruct H
           | H : _ /\ _ |- _ => destruct H
           | H : False |- _ => destruct H
           end; try discriminate; assumption. }
  subst q. unfold word, plus in L. simpl in L. inv_lang.
  repeat match goal with
         | H : accepts (Chr _) _ = true |- _ =>
             simpl in H; apply Ascii.eqb_eq in H; subst
         end.
  match goal with
  | Hw : Forall (fun c => accepts Word c = true) ?t, H1 : 1 <= length ?t |- _ =>
      exists t; split; [reflexivity|split; [apply nonempty_length; exact H1|exact Hw]]
  end.
Qed.

(** X5: the id of every row of the table is empty or is [CADT] followed by
    one or more word characters (letters, digits, underscore). *)
Theorem row_id_is_empty_or_cadt (text : str) :
  Forall (fun r => ID r = [] \/ cadt_id (ID r)) (parse_text_to_dataframe text).
Proof.
  apply parse_rows. intros c line r Hr.
  destruct (data_row_inv _ _ _ Hr) as [g [Hm [_ [Hd _]]]].
  assert (Hid : ID r = or_empty (lookup 1 g)).
  { destruct (decode_cases (lookup 1 g) (lookup 2 g) (lookup 3 g))
      as [E|[d0 [d1 [rest [_ [_ [_ [_ [_ E]]]]]]]]];
      rewrite E in Hd; inversion Hd; reflexivity. }
  rewrite Hid. destruct (lookup 1 g) as [v|] eqn:El; [|left; reflexivity].
  right. exact (data_pattern_group1 _ Hm El).
Qed.

(** X6: the description of every row of the table is stripped: it neither
    starts nor ends with whitespace, also when the fallback has cut the
    numeric code off its front. *)
Theorem row_description_is_stripped (text : str) :
  Forall (fun r => strip (Description r) = Description r) (parse_text_to_dataframe text).
Proof.
  apply parse_rows. intros c line r Hr.
  destruct (data_row_inv _ _ _ Hr) as [g [_ [_ [Hd _]]]].
  destruct (decode_cases (lookup 1 g) (lookup 2 g) (lookup 3 g))
    as [E|[d0 [d1 [rest [_ [_ [Hs [_ [_ E]]]]]]]]];
    rewrite E in Hd; inversion Hd as [[Hi Hn Hde]]; rewrite Hde.
  - apply strip_idem.
  - eapply split1_rest_stripped. exact Hs.
Qed.

Lemma header_text_stripped raw : strip (header_text (strip raw)) = header_text (strip raw).
Proof.
  unfold header_text. destruct (split1 (strip raw)) as [|t [|r l]] eqn:E;
    try apply strip_idem.
  eapply split1_rest_stripped. exact E.
Qed.

Lemma loop_body_context_ok st raw :
  context_ok (ctx st) -> context_ok (ctx (loop_body st raw)).
Proof.
  intros [H1 [H2 H3]]. unfold loop_body.
  destruct (skipped (strip raw)); [repeat split; assumption|].
  destruct (is_level1 (strip raw)).
  { split; [apply header_text_stripped|]. split; [reflexivity|]. left. split; reflexivity. }
  destruct (matches level2_pattern (strip raw)).
  { split; [exact H1|]. split; [apply header_text_stripped|]. left. split; reflexivity. }
  destruct (matches level3_pattern (strip raw)) eqn:E3; [|repeat split; assumption].
  destruct (level3_split (strip_no_trail raw) E3) as [Hs [Hd [Hl Hne]]].
  split; [exact H1|]. split; [exact H2|]. right. simpl. rewrite Hs. simpl.
  repeat split; try assumption.
  eapply split1_rest_stripped. exact Hs.
Qed.

Lemma parse_lines_context_ok lines :
  forall st,
    context_ok (ctx st) ->
    Forall (fun r => level_fields_ok (Level_1 r) (Level_2 r) (Level_3_Code r) (Level_3 r))
           (data st) ->
    Forall (fun r => level_fields_ok (Level_1 r) (Level_2 r) (Level_3_Code r) (Level_3 r))
           (data (parse_lines lines st)).
Proof.
  induction lines as [|l lines IH]; intros st Hc Hd; simpl; [exact Hd|].
  apply IH; [apply loop_body_context_ok; exact Hc|].
  destruct (loop_body_appends st l) as [new [E [_ Hn]]]. rewrite E.
  apply Forall_app. split; [exact Hd|].
  apply Forall_forall. intros r Hr. destruct (Hn r Hr) as [Hr' _].
  destruct (data_row_inv _ _ _ Hr') as [g [_ [_ [_ [E1 [E2 [E3 E4]]]]]]].
  rewrite E1, E2, E3, E4. exact Hc.
Qed.

(** X7: in every row of the table, levels 1 and 2 are stripped, and level 3
    is either unset, code and text both empty, or a code of exactly four
    digits with a non-empty stripped text. *)
Theorem row_levels_are_well_formed (text : str) :
  Forall (fun r => level_fields_ok (Level_1 r) (Level_2 r) (Level_3_Code r) (Level_3 r))
         (parse_text_to_dataframe text).
Proof.
  unfold parse_text_to_dataframe. apply parse_lines_context_ok; [|constructor].
  split; [reflexivity|]. split; [reflexivity|]. left. split; reflexivity.
Qed.

(** ** Lines that can give no row *)

Lemma dropwhile_incl (p : ascii -> bool) (s : str) c :
  In c (dropwhile p s) -> In c s.
Proof.
  induction s as [|d s IH]; simpl; [trivial|].
  destruct (p d); [intro H; right; apply IH; exact H|trivial].
Qed.

Lemma strip_incl (s : str) c : In c (strip s) -> In c s.
Proof.
  unfold strip, lstrip, rstrip. intro H.
  apply dropwhile_incl in H. apply in_rev in H. apply dropwhile_incl in H.
  apply in_rev. exact H.
Qed.

Lemma split_nl_incl (text : str) :
  forall l c, In l (split_nl text) -> In c l -> In c text.
Proof.
  induction text as [|d text IH]; intros l c Hl Hc; simpl in Hl.
  - destruct Hl as [<-|[]]. exact Hc.
  - destruct (Ascii.eqb d newline).
    + destruct Hl as [<-|Hl]; [contradiction|]. right. eapply IH; eassumption.
    + destruct (split_nl text) as [|l0 ls] eqn:E.
      * destruct Hl as [<-|[]]. destruct Hc as [<-|[]]. left. reflexivity.
      * destruct Hl as [<-|Hl].
        -- destruct Hc as [<-|Hc]; [left; reflexivity|].
           right. apply (IH l0 c); [left; reflexivity|exact Hc].
        -- right. apply (IH l c); [right; exact Hl|exact Hc].
Qed.

(** A line the data-row pattern matches has a dash and a capital X. *)
Lemma data_pattern_needs line :
  matches data_pattern line = true ->
  In "-"%char line /\ In "X"%char line.
Proof.
  intro H. apply matches_lang in H. destruct H as [w [s' [-> L]]].
  unfold data_pattern, star, at_least in L. simpl in L. inv_lang.
  repeat match goal with
         | H : accepts (Chr _) _ = true |- _ =>
             simpl in H; apply Ascii.eqb_eq in H; subst
         end.
  split; repeat rewrite in_app_iff; simpl; tauto.
Qed.

Lemma data_row_needs c line :
  ~ In "-"%char line \/ ~ In "X"%char line -> data_row c line = [].
Proof.
  intro H. unfold data_row.
  destruct (re_match data_pattern line) as [g|] eqn:E; [|reflexivity].
  assert (M : matches data_pattern line = true) by (unfold matches; rewrite E; reflexivity).
  destruct (data_pattern_needs _ M) as [H1 H2]. tauto.
Qed.

Lemma parse_lines_no_rows lines :
  forall st,
    (forall l c, In l lines -> data_row c (strip l) = []) ->
    data (parse_lines lines st) = data st.
Proof.
  induction lines as [|l lines IH]; intros st H; simpl; [reflexivity|].
  rewrite IH; [|intros l' c Hl; apply H; right; exact Hl].
  destruct (loop_body_appends st l) as [new [E [_ Hn]]]. rewrite E.
  destruct new as [|r new]; [apply app_nil_r|].
  destruct (Hn r (or_introl eq_refl)) as [Hr _].
  rewrite (H l (ctx st) (or_introl eq_refl)) in Hr. contradiction.
Qed.

(** X8: a text without any dash, or without any capital X, gives the empty
    table, headers or not: every row comes from a line with both. *)
Theorem no_dash_or_no_X_gives_no_row (text : str) :
  ~ In "-"%char text \/ ~ In "X"%char text ->
  parse_text_to_dataframe text = [].
Proof.
  intro H. unfold parse_text_to_dataframe.
  rewrite parse_lines_no_rows; [reflexivity|].
  intros l c Hl. apply data_row_needs.
  destruct H as [H|H]; [left|right]; intro Hin; apply H;
    (eapply split_nl_incl; [exact Hl|apply strip_incl; exact Hin]).
Qed.

Lemma no_dash_or_no_X_gives_no_row_witness :
  parse_text_to_dataframe
    (join_nl [lit "001 Net Revenue"; lit "CADTX1 40102345 _X_ Fee income"]) = [].
Proof.
  apply no_dash_or_no_X_gives_no_row. left. vm_compute.
  intro H. repeat (destruct H as [H|H]; [discriminate H|]). exact H.
Defined.

(** ** Rows carry the levels in force *)

Lemma loop_body_keeps_levels st raw :
  keeps_levels raw = true -> ctx (loop_body st raw) = ctx st.
Proof.
  unfold keeps_levels, is_header, loop_body.
  destruct (skipped (strip raw)); [reflexivity|].
  destruct (is_level1 (strip raw)); [discriminate|].
  destruct (matches level2_pattern (strip raw)); [discriminate|].
  destruct (matches level3_pattern (strip raw)); [discriminate|].
  reflexivity.
Qed.

(** X9: lines that are no header leave the levels as they are, and every row
    they add carries those levels: a row has the levels of the last headers
    before it. *)
Theorem rows_carry_the_levels_in_force (lines : list str) (st : State) :
  Forall (fun raw => keeps_levels raw = true) lines ->
  ctx (parse_lines lines st) = ctx st /\
  exists new,
    data (parse_lines lines st) = data st ++ new /\
    Forall (carries (ctx st)) new.
Proof.
  intro H. revert st. induction H as [|l lines Hl _ IH]; intro st; simpl.
  - split; [reflexivity|]. exists []. rewrite app_nil_r. split; [reflexivity|constructor].
  - destruct (IH (loop_body st l)) as [Hc [n2 [E2 F2]]].
    pose proof (loop_body_keeps_levels st l Hl) as Hk.
    destruct (loop_body_appends st l) as [n1 [E1 [_ Hn]]].
    split; [rewrite Hc; exact Hk|].
    exists (n1 ++ n2). rewrite E2, E1, <- app_assoc. split; [reflexivity|].
    apply Forall_app. split; [|rewrite <- Hk; exact F2].
    apply Forall_forall. intros r Hr. destruct (Hn r Hr) as [Hr' _].
    destruct (data_row_inv _ _ _ Hr') as [g [_ [_ [_ [E3 [E4 [E5 E6]]]]]]].
    repeat split; assumption.
Qed.

Lemma rows_carry_the_levels_in_force_witness :
  let c := mkContext (lit "Net Revenue") (lit "Service Revenue") [] [] in
  let lines := [lit "CADTX1 - 12345678 X Fee"; lit "001 PAGE 2"; lit "CADTX2 - 12345679 X Tax"] in
  ctx (parse_lines lines (mkState c [])) = c.
Proof.
  intros c lines.
  assert (H : Forall (fun raw => keeps_levels raw = true) lines)
    by (repeat constructor).
  exact (proj1 (@rows_carry_the_levels_in_force lines (mkState c []) H)).
Defined.

(** ** Joining the fragments and splitting them again *)

Lemma split_nl_nonempty (s : str) : split_nl s <> [].
Proof.
  destruct s as [|c s]; simpl; [discriminate|].
  destruct (Ascii.eqb c newline); [discriminate|].
  destruct (split_nl s); discriminate.
Qed.

Lemma join_nl_cons (c : ascii) (l : str) (ls : list str) :
  join_nl ((c :: l) :: ls) = c :: join_nl (l :: ls).
Proof. destruct ls; reflexivity. Qed.

Lemma join_split (s : str) : join_nl (split_nl s) = s.
Proof.
  induction s as [|c s IH]; [reflexivity|]. simpl.
  pose proof (split_nl_nonempty s) as Hne.
  destruct (Ascii.eqb c newline) eqn:E.
  - apply Ascii.eqb_eq in E. subst c.
    destruct (split_nl s) as [|l ls]; [contradiction|].
    change (join_nl ([] :: l :: ls)) with (newline :: join_nl (l :: ls)).
    rewrite IH. reflexivity.
  - destruct (split_nl s) as [|l ls]; [contradiction|].
    rewrite join_nl_cons, IH. reflexivity.
Qed.

Lemma split_nl_app (a b : str) :
  split_nl (a ++ newline :: b) = split_nl a ++ split_nl b.
Proof.
  induction a as [|c a IH]; [reflexivity|]. simpl.
  destruct (Ascii.eqb c newline); [rewrite IH; reflexivity|].
  rewrite IH. pose proof (split_nl_nonempty a) as Hne.
  destruct (split_nl a) as [|l ls]; [contradiction|reflexivity].
Qed.

Lemma split_join (parts : list str) :
  parts <> [] -> split_nl (join_nl parts) = flat_map split_nl parts.
Proof.
  induction parts as [|p parts IH]; [contradiction|]. intros _.
  destruct parts as [|q parts].
  - simpl. symmetry. apply app_nil_r.
  - change (join_nl (p :: q :: parts)) with (p ++ newline :: join_nl (q :: parts)).
    rewrite split_nl_app, IH; [reflexivity|discriminate].
Qed.

Lemma split_nl_one_line (s : str) : ~ In newline s -> split_nl s = [s].
Proof.
  induction s as [|c s IH]; intro H; [reflexivity|]. simpl.
  destruct (Ascii.eqb c newline) eqn:E.
  - apply Ascii.eqb_eq in E. exfalso. apply H. left. exact E.
  - rewrite IH; [reflexivity|]. intro Hin. apply H. right. exact Hin.
Qed.

(** X10: splitting at newlines undoes joining with newlines, and the other
    way round: [split] then [join] gives the text back, and [join] then
    [split] gives the lines of the parts in order, the parts themselves when
    none has a newline in it.  So the parser reads the fragments of the
    extractor line by line, in their order. *)
Theorem split_and_join_are_inverse :
  (forall s, join_nl (split_nl s) = s) /\
  (forall parts, parts <> [] -> split_nl (join_nl parts) = flat_map split_nl parts) /\
  (forall parts, parts <> [] -> Forall (fun p => ~ In newline p) parts ->
                 split_nl (join_nl parts) = parts).
Proof.
  split; [exact join_split|]. split; [exact split_join|].
  intros parts Hne Hall. rewrite split_join by exact Hne.
  clear Hne. induction Hall as [|p parts Hp _ IH]; [reflexivity|].
  simpl. rewrite (split_nl_one_line _ Hp), IH. reflexivity.
Qed.

(** ** Sorting the blocks of a page *)

Lemma insert_block_front b l :
  HdRel block_le b l -> insert_block b l = b :: l.
Proof.
  intro H. destruct l as [|c l]; [reflexivity|]. simpl.
  inversion H as [|? ? Hbc]; subst.
  apply key_lt_false_iff in Hbc. rewrite Hbc. reflexivity.
Qed.

Lemma sort_blocks_sorted_input l : Sorted block_le l -> sort_blocks l = l.
Proof.
  induction 1 as [|b l Hs IH Hh]; [reflexivity|].
  simpl. rewrite IH. apply insert_block_front. exact Hh.
Qed.

(** X11: the sort leaves a page that is in reading order as it is, blocks at
    the same position included, which stay in the order they came in; so
    sorting twice is sorting once. *)
Theorem sort_keeps_a_sorted_page (page : Page) :
  (Sorted block_le page -> sort_blocks page = page) /\
  sort_blocks (sort_blocks page) = sort_blocks page.
Proof.
  split; [apply sort_blocks_sorted_input|].
  apply sort_blocks_sorted_input. apply StronglySorted_Sorted. apply sort_blocks_sorted.
Qed.

Lemma sort_keeps_a_sorted_page_witness :
  let page := [mkBlock 0 0 (lit "a"); mkBlock 5 0 (lit "b"); mkBlock 5 0 (lit "c");
               mkBlock 0 1 (lit "d")] in
  sort_blocks page = page.
Proof.
  intro page. apply (proj1 (sort_keeps_a_sorted_page page)).
  repeat constructor; unfold block_le; simpl; lra.
Defined.

Lemma split_and_join_are_inverse_witness :
  split_nl (join_nl [lit "001 Net Revenue"; lit ""; lit "4010 Gross"])
  = [lit "001 Net Revenue"; lit ""; lit "4010 Gross"].
Proof.
  apply (proj2 (proj2 split_and_join_are_inverse)); [discriminate|].
  repeat constructor; vm_compute; intro H;
    repeat (destruct H as [H|H]; [discriminate H|]); exact H.
Defined.

(** ** A document without text *)

Lemma join_nl_empty (parts : list str) :
  join_nl parts = [] <-> parts = [] \/ parts = [[]].
Proof.
  split.
  - destruct parts as [|p [|q parts]]; simpl; intro H.
    + left; reflexivity.
    + right. rewrite H. reflexivity.
    + destruct p; discriminate.
  - intros [->| ->]; reflexivity.
Qed.

Lemma full_text_of_perm pages :
  Permutation (full_text_of pages) (map fragment (concat pages)).
Proof.
  rewrite full_text_of_spec. induction pages as [|p pages IH]; simpl; [constructor|].
  rewrite map_app. apply Permutation_app; [|exact IH].
  apply Permutation_map. apply sort_blocks_perm.
Qed.

Lemma convert_extraction_failed pdf_path excel_path w :
  fst (convert_pdf_to_excel pdf_path excel_path w) = (false, extraction_failed)
  <-> no_text (fst (extract_text_from_pdf pdf_path w)) = true.
Proof.
  unfold convert_pdf_to_excel.
  destruct (extract_text_from_pdf pdf_path w) as [raw w1]. simpl.
  destruct (no_text raw); [split; reflexivity|].
  destruct (parse_text_to_dataframe (or_empty raw)); simpl; split; intro H;
    discriminate.
Qed.

(** X12: a readable document is answered with [Failed to extract text from
    the PDF.] exactly when it has no block at all or one block only, with a
    blank text.  (Two blank blocks already give a text, a newline, and the
    other failure.) *)
Theorem readable_document_without_text
        (w : World) (pdf_path excel_path : str) (pages : list Page) :
  pdf_at w pdf_path = Some (Readable pages) ->
  (fst (convert_pdf_to_excel pdf_path excel_path w) = (false, extraction_failed)
   <-> concat pages = [] \/ exists b, concat pages = [b] /\ strip (block_text b) = []).
Proof.
  intro H. rewrite convert_extraction_failed.
  unfold extract_text_from_pdf. rewrite H. simpl.
  rewrite negb_true_iff, truthy_false, join_nl_empty.
  pose proof (full_text_of_perm pages) as P.
  split; intros [E|E].
  - left. rewrite E in P. apply Permutation_nil in P.
    destruct (concat pages); [reflexivity|discriminate].
  - right. rewrite E in P. apply Permutation_length_1_inv in P.
    destruct (concat pages) as [|b [|b' l]]; try discriminate.
    exists b. split; [reflexivity|]. inversion P. reflexivity.
  - left. rewrite E in P. apply Permutation_sym, Permutation_nil in P. exact P.
  - right. destruct E as [b [E Hb]]. rewrite E in P. simpl in P.
    apply Permutation_sym, Permutation_length_1_inv in P.
    rewrite P. unfold fragment. rewrite Hb. reflexivity.
Qed.

Lemma readable_document_without_text_witness :
  let w := mkWorld (only_in_pdf (Doc (Readable [[]; [mkBlock 0 0 (lit "  ")]; []])))
                   no_document (fun _ => None) [] in
  fst (convert_pdf_to_excel (lit "in.pdf") (lit "out.xlsx") w)
  = (false, extraction_failed).
Proof.
  intro w.
  apply (proj2 (@readable_document_without_text w (lit "in.pdf") (lit "out.xlsx") _ eq_refl)).
  right. exists (mkBlock 0 0 (lit "  ")). split; reflexivity.
Defined.

(** ** Converting again *)

Lemma str_eqb_eq (a b : str) : str_eqb a b = true <-> a = b.
Proof.
  unfold str_eqb. destruct (list_eq_dec ascii_dec a b); split; congruence.
Qed.

Lemma str_eqb_refl (a : str) : str_eqb a a = true.
Proof. apply str_eqb_eq. reflexivity. Qed.

Lemma str_eqb_neq (a b : str) : a <> b -> str_eqb a b = false.
Proof.
  intro H. destruct (str_eqb a b) eqn:E; [|reflexivity].
  apply str_eqb_eq in E. contradiction.
Qed.


Lemma save_frame df excel_path w :
  foreign_pdf (save_to_excel df excel_path w) = foreign_pdf w /\
  to_excel_fault (save_to_excel df excel_path w) = to_excel_fault w /\
  forall q,
    file_at (save_to_excel df excel_path w) q
    = if str_eqb q excel_path then left_by_save w df excel_path else file_at w q.
Proof.
  unfold save_to_excel, left_by_save.
  destruct (to_excel_fault w excel_path) as [ft|]; [destruct (leaves_partial ft)|];
    repeat split; intro q; simpl; try reflexivity.
  destruct (str_eqb q excel_path) eqn:E; [|reflexivity].
  apply str_eqb_eq in E. subst q. reflexivity.
Qed.

(** What a conversion makes of the files, by what it reads. *)
Lemma convert_files pdf_path excel_path w q :
  file_at (snd (convert_pdf_to_excel pdf_path excel_path w)) q
  = match fst (extract_text_from_pdf pdf_path w) with
    | Some (c :: t) =>
        match parse_text_to_dataframe (c :: t) with
        | [] => file_at w q
        | df => if str_eqb q excel_path then left_by_save w df excel_path
                else file_at w q
        end
    | _ => file_at w q
    end.
Proof.
  unfold convert_pdf_to_excel.
  destruct (extract_keeps_world pdf_path w) as [He [Hx Hf]].
  destruct (extract_text_from_pdf pdf_path w) as [raw w1]. simpl in *.
  destruct raw as [[|c t]|]; simpl; try (rewrite Hx; reflexivity).
  destruct (parse_text_to_dataframe (c :: t)) as [|r rows]; simpl.
  - rewrite Hx; reflexivity.
  - destruct (save_frame (r :: rows) excel_path w1) as [_ [_ Hs]].
    rewrite Hs. unfold left_by_save. rewrite He, Hx. reflexivity.
Qed.

(** The flag and the message of a conversion, by the text and its table. *)
Lemma convert_answer pdf_path excel_path w :
  fst (convert_pdf_to_excel pdf_path excel_path w)
  = match fst (extract_text_from_pdf pdf_path w) with
    | Some (c :: t) =>
        match parse_text_to_dataframe (c :: t) with
        | [] => (false, nothing_parsed)
        | _ => (true, success_message excel_path)
        end
    | _ => (false, extraction_failed)
    end.
Proof.
  unfold convert_pdf_to_excel.
  destruct (extract_text_from_pdf pdf_path w) as [raw w1]. simpl.
  destruct raw as [[|c t]|]; simpl; try reflexivity.
  destruct (parse_text_to_dataframe (c :: t)); reflexivity.
Qed.








(** ** The script run as a program *)



(** ** The upload filter *)

Module AppFacts.

Import App.

Lemma contains_dot (s : str) : contains (lit ".") s = true <-> In "."%char s.
Proof.
  rewrite contains_app. split.
  - intros [a [b ->]]. apply in_or_app. right. left. reflexivity.
  - intro H. apply in_split in H. destruct H as [a [b ->]]. exists a, b. reflexivity.
Qed.

Lemma not_dot_false c : not_dot c = false <-> c = "."%char.
Proof.
  unfold not_dot. rewrite negb_false_iff. apply Ascii.eqb_eq.
Qed.

Lemma no_dot_forall (s : str) :
  ~ In "."%char s <-> Forall (fun c => not_dot c = true) s.
Proof.
  rewrite Forall_forall. split.
  - intros H c Hc. destruct (not_dot c) eqn:E; [reflexivity|].
    apply not_dot_false in E. subst c. contradiction.
  - intros H Hin. specialize (H _ Hin). discriminate.
Qed.

(** The two parts of [rsplit('.', 1)] of a name with a dot: the dot between
    them is the last one. *)
Lemma rsplit_dot_two (s : str) :
  In "."%char s ->
  exists base ext,
    rsplit_dot s = [base; ext] /\ s = base ++ "."%char :: ext /\ ~ In "."%char ext.
Proof.
  intro H. unfold rsplit_dot.
  pose proof (take_drop not_dot (rev s)) as Htd.
  destruct (dropwhile not_dot (rev s)) as [|c before] eqn:E.
  - exfalso. apply dropwhile_nil in E. apply no_dot_forall in E.
    apply E. apply -> in_rev. exact H.
  - assert (Hc : c = "."%char) by (apply not_dot_false; eapply dropwhile_head; exact E).
    subst c. exists (rev before), (rev (takewhile not_dot (rev s))).
    split; [reflexivity|]. split.
    + apply (f_equal (@rev ascii)) in Htd. rewrite rev_involutive in Htd.
      etransitivity; [symmetry; exact Htd|].
      rewrite rev_app_distr. simpl. rewrite <- app_assoc. reflexivity.
    + apply no_dot_forall. apply Forall_rev. apply takewhile_all.
Qed.

Lemma rsplit_dot_last (base ext : str) :
  ~ In "."%char ext -> rsplit_dot (base ++ "."%char :: ext) = [base; ext].
Proof.
  intro H. unfold rsplit_dot.
  assert (Hr : rev (base ++ "."%char :: ext) = rev ext ++ "."%char :: rev base).
  { rewrite rev_app_distr. simpl. rewrite <- app_assoc. reflexivity. }
  rewrite Hr.
  assert (Hall : Forall (fun c => not_dot c = true) (rev ext)).
  { apply Forall_rev. apply no_dot_forall. exact H. }
  destruct (@takewhile_stop not_dot (rev ext) "."%char (rev base) Hall eq_refl) as [-> ->].
  rewrite !rev_involutive. reflexivity.
Qed.

Lemma allowed_extension_pdf (x : str) : allowed_extension x = true <-> x = lit "pdf".
Proof.
  unfold allowed_extension, ALLOWED_EXTENSIONS.
  change (existsb (str_eqb x) [lit "pdf"]) with (str_eqb x (lit "pdf") || false).
  rewrite orb_false_r. apply str_eqb_eq.
Qed.

(** X15: a file name is allowed exactly when it has a dot and what follows
    its last dot is [pdf] in upper or lower case letters; a name without a
    dot, or with anything else after the last dot, is refused. *)
Theorem allowed_file_iff (filename : str) :
  allowed_file filename = true <->
  exists base ext,
    filename = base ++ "."%char :: ext /\ ~ In "."%char ext /\ lower ext = lit "pdf".
Proof.
  unfold allowed_file. rewrite andb_true_iff, contains_dot. split.
  - intros [Hd H]. destruct (rsplit_dot_two _ Hd) as [base [ext [E [Hs Hn]]]].
    rewrite E in H. apply allowed_extension_pdf in H.
    exists base, ext. repeat split; assumption.
  - intros [base [ext [-> [Hn Hl]]]]. split.
    + apply in_or_app. right. left. reflexivity.
    + rewrite (@rsplit_dot_last base ext Hn). apply allowed_extension_pdf. exact Hl.
Qed.

Lemma allowed_file_iff_witness :
  allowed_file (lit "report.2024.PdF") = true /\
  allowed_file (lit "report.pdf.exe") = false /\
  allowed_file (lit "pdf") = false.
Proof.
  split.
  - apply (proj2 (allowed_file_iff (lit "report.2024.PdF"))).
    exists (lit "report.2024"), (lit "PdF"). split; [reflexivity|]. split; [|reflexivity].
    vm_compute. intro H. repeat (destruct H as [H|H]; [discriminate H|]). exact H.
  - split; reflexivity.
Defined.

End AppFacts.

(** ** The upload route *)

Module WebFacts.

Import App Web.

(** The conversion reads the upload that was saved for it. *)
Lemma upload_is_read env f w :
  fst (extract_text_from_pdf (pdf_path env f)
         (save_upload (pdf_path env f) (content f) w))
  = upload_text f.
Proof.
  unfold extract_text_from_pdf, pdf_at, save_upload, upload_text. simpl.
  rewrite str_eqb_refl. simpl. destruct (content f); reflexivity.
Qed.

(** What [process] answers, by the text of the upload and its table. *)
Lemma process_answer env f w :
  fst (process env f w)
  = match upload_text f with
    | Some (c :: t) =>
        match parse_text_to_dataframe (c :: t) with
        | [] => Redirect (lit "Conversion failed: " ++ nothing_parsed)
        | df =>
            match (if str_eqb (excel_path env f) (pdf_path env f) then None
                   else left_by_save w df (excel_path env f)) with
            | Some x => Download (base_name env f ++ lit ".xlsx") x
            | None =>
                Redirect (lit "An error occurred: " ++ open_error env (excel_path env f))
            end
        end
    | _ => Redirect (lit "Conversion failed: " ++ extraction_failed)
    end.
Proof.
  unfold process.
  pose proof (convert_answer (pdf_path env f) (excel_path env f)
                (save_upload (pdf_path env f) (content f) w)) as Ha.
  pose proof (convert_files (pdf_path env f) (excel_path env f)
                (save_upload (pdf_path env f) (content f) w) (excel_path env f)) as Hf.
  rewrite upload_is_read in Ha, Hf. rewrite str_eqb_refl in Hf.
  destruct (convert_pdf_to_excel (pdf_path env f) (excel_path env f)
              (save_upload (pdf_path env f) (content f) w)) as [result w2].
  simpl in Ha, Hf. subst result.
  destruct (upload_text f) as [[|c t]|]; try reflexivity.
  destruct (parse_text_to_dataframe (c :: t)) as [|r rows]; [reflexivity|].
  simpl fst. cbv iota. simpl file_at.
  destruct (str_eqb (excel_path env f) (pdf_path env f)) eqn:E; [reflexivity|].
  rewrite Hf. unfold left_by_save, save_upload. simpl.
  rewrite E. destruct (to_excel_fault w (excel_path env f)) as [ft|]; [|reflexivity].
  destruct (leaves_partial ft); [reflexivity|].
  destruct (file_at w (excel_path env f)); reflexivity.
Qed.

(** The files [process] leaves: the saved upload is removed, and so is
    whatever a conversion that reported success left at the output path. *)
Lemma process_files env f w q :
  file_at (snd (process env f w)) q
  = if str_eqb q (pdf_path env f) then None
    else if str_eqb q (excel_path env f) then
      match upload_text f with
      | Some (c :: t) =>
          match parse_text_to_dataframe (c :: t) with
          | [] => file_at w q
          | _ => None
          end
      | _ => file_at w q
      end
    else file_at w q.
Proof.
  unfold process.
  pose proof (convert_answer (pdf_path env f) (excel_path env f)
                (save_upload (pdf_path env f) (content f) w)) as Ha.
  pose proof (convert_files (pdf_path env f) (excel_path env f)
                (save_upload (pdf_path env f) (content f) w) q) as Hf.
  rewrite upload_is_read in Ha, Hf.
  destruct (convert_pdf_to_excel (pdf_path env f) (excel_path env f)
              (save_upload (pdf_path env f) (content f) w)) as [result w2].
  simpl in Ha, Hf. subst result.
  destruct (str_eqb q (pdf_path env f)) eqn:Ep;
    destruct (str_eqb q (excel_path env f)) eqn:Ee;
    destruct (upload_text f) as [[|c t]|];
    try destruct (parse_text_to_dataframe (c :: t)) as [|r rows];
    simpl;
    try match goal with
        | |- context [match ?o with Some _ => _ | None => _ end] => destruct o
        end;
    simpl; rewrite ?Ep, ?Ee; simpl; rewrite ?Ep, ?Ee; try reflexivity;
    rewrite Hf; rewrite ?Ep, ?Ee; reflexivity.
Qed.

(** X16: when the route answers with a download, the upload had an
    allowed name and a readable document whose table has at least one row,
    the download is named by the upload's base name with [.xlsx], and the
    file sent is what the save left at the output path: the whole table when
    [to_excel] did not raise, a partial workbook when it raised and left
    one, and otherwise a file that was at that path before. *)
Theorem download_is_what_the_save_left
        (env : Env) (req : Request) (w : World) (name : str) (data : File) :
  fst (index env req w) = Download name data ->
  exists f pages,
    file req = Some f /\ allowed_file (filename f) = true /\
    content f = Readable pages /\
    parse_text_to_dataframe (join_nl (full_text_of pages)) <> [] /\
    name = base_name env f ++ lit ".xlsx" /\
    match to_excel_fault w (excel_path env f) with
    | None => data = Workbook (parse_text_to_dataframe (join_nl (full_text_of pages)))
    | Some ft =>
        if leaves_partial ft then data = Partial
        else file_at w (excel_path env f) = Some data
    end.
Proof.
  unfold index.
  destruct (is_post req); [|discriminate].
  destruct (file req) as [f|]; [|discriminate].
  destruct (negb (truthy (filename f))); [discriminate|].
  destruct (allowed_file (filename f)) eqn:Ha; [|discriminate].
  rewrite process_answer. unfold upload_text.
  destruct (content f) as [pages|err] eqn:Ec; [|discriminate].
  destruct (join_nl (full_text_of pages)) as [|c t] eqn:Et; [discriminate|].
  destruct (parse_text_to_dataframe (c :: t)) as [|r rows] eqn:Ep; [discriminate|].
  destruct (str_eqb (excel_path env f) (pdf_path env f)); [discriminate|].
  unfold left_by_save.
  intro H. exists f, pages.
  split; [reflexivity|]. split; [exact Ha|]. split; [exact Ec|].
  rewrite Et, Ep. split; [discriminate|].
  destruct (to_excel_fault w (excel_path env f)) as [ft|].
  - destruct (leaves_partial ft).
    + inversion H. split; reflexivity.
    + destruct (file_at w (excel_path env f)) as [old|]; [|discriminate].
      inversion H. split; reflexivity.
  - inversion H. split; reflexivity.
Qed.

Lemma download_is_what_the_save_left_witness :
  exists f pages,
    file (mkRequest true (Some one_row_upload)) = Some f /\
    allowed_file (filename f) = true /\
    content f = Readable pages /\
    parse_text_to_dataframe (join_nl (full_text_of pages)) <> [] /\
    lit "report.xlsx" = base_name plain_env f ++ lit ".xlsx" /\
    match to_excel_fault fresh_world (excel_path plain_env f) with
    | None =>
        Workbook [mkRow [] [] [] [] (lit "CADTX1") (lit "12345678") (lit "Fee")]
        = Workbook (parse_text_to_dataframe (join_nl (full_text_of pages)))
    | Some ft =>
        if leaves_partial ft
        then Workbook [mkRow [] [] [] [] (lit "CADTX1") (lit "12345678") (lit "Fee")]
             = Partial
        else file_at fresh_world (excel_path plain_env f)
             = Some (Workbook [mkRow [] [] [] [] (lit "CADTX1") (lit "12345678")
                                     (lit "Fee")])
    end.
Proof.
  apply (@download_is_what_the_save_left
           plain_env (mkRequest true (Some one_row_upload)) fresh_world).
  vm_compute. reflexivity.
Defined.

(** X17: after the route has handled an upload with an allowed name, no
    file is at the path the upload was saved to, nothing is at the output
    path unless a file was there before, the file that was there is gone or
    as it was, and the file at every other path is as it was. *)
Theorem upload_leaves_no_file_behind
        (env : Env) (req : Request) (w : World) (f : Upload) :
  is_post req = true ->
  file req = Some f ->
  filename f <> [] ->
  allowed_file (filename f) = true ->
  let w' := snd (index env req w) in
  file_at w' (pdf_path env f) = None /\
  (file_at w (excel_path env f) = None -> file_at w' (excel_path env f) = None) /\
  (file_at w' (excel_path env f) = None \/
   file_at w' (excel_path env f) = file_at w (excel_path env f)) /\
  (forall q, q <> pdf_path env f -> q <> excel_path env f ->
             file_at w' q = file_at w q).
Proof.
  intros Hp Hf Hn Ha w'. subst w'. unfold index. rewrite Hp, Hf, Ha.
  apply truthy_iff in Hn. rewrite Hn. simpl negb. cbv iota.
  assert (He : file_at (snd (process env f w)) (excel_path env f) = None \/
               file_at (snd (process env f w)) (excel_path env f)
               = file_at w (excel_path env f)).
  { rewrite process_files, str_eqb_refl.
    destruct (str_eqb (excel_path env f) (pdf_path env f)); [left; reflexivity|].
    destruct (upload_text f) as [[|c t]|]; try (right; reflexivity).
    destruct (parse_text_to_dataframe (c :: t)); [right|left]; reflexivity. }
  split; [|split; [|split; [exact He|]]].
  - rewrite process_files, str_eqb_refl. reflexivity.
  - intro Hnone. destruct He as [He|He]; [exact He|]. rewrite He. exact Hnone.
  - intros q Hqp Hqe. rewrite process_files.
    rewrite (str_eqb_neq Hqp), (str_eqb_neq Hqe). reflexivity.
Qed.

Lemma upload_leaves_no_file_behind_witness :
  file_at (snd (index plain_env (mkRequest true (Some one_row_upload)) fresh_world))
          (lit "/tmp/uploads/report_t0.pdf") = None /\
  file_at (snd (index plain_env (mkRequest true (Some one_row_upload)) fresh_world))
          (lit "/tmp/uploads/report_t1.xlsx") = None.
Proof.
  assert (Hn : filename one_row_upload <> []) by (vm_compute; discriminate).
  pose proof (@upload_leaves_no_file_behind
                plain_env (mkRequest true (Some one_row_upload)) fresh_world
                one_row_upload eq_refl eq_refl Hn eq_refl) as H.
  split; [exact (proj1 H)|exact (proj1 (proj2 H) eq_refl)].
Defined.

(** X18: when [to_excel] raises for an upload whose document gives rows,
    and the upload and the output have different paths, the conversion
    still reports success, and the route opens whatever is at the output
    path: it sends the partial workbook as the download when the failed
    save left one, and answers with the flash [An error occurred: ...] and
    a redirect when the save left nothing and no file was there before. *)
Theorem route_after_a_failed_save
        (env : Env) (req : Request) (w : World) (f : Upload)
        (pages : list Page) (ft : Fault) :
  is_post req = true ->
  file req = Some f ->
  filename f <> [] ->
  allowed_file (filename f) = true ->
  content f = Readable pages ->
  join_nl (full_text_of pages) <> [] ->
  parse_text_to_dataframe (join_nl (full_text_of pages)) <> [] ->
  to_excel_fault w (excel_path env f) = Some ft ->
  pdf_path env f <> excel_path env f ->
  fst (fst (convert_pdf_to_excel (pdf_path env f) (excel_path env f)
              (save_upload (pdf_path env f) (content f) w))) = true /\
  (leaves_partial ft = true ->
   fst (index env req w) = Download (base_name env f ++ lit ".xlsx") Partial) /\
  (leaves_partial ft = false ->
   file_at w (excel_path env f) = None ->
   fst (index env req w)
   = Redirect (lit "An error occurred: " ++ open_error env (excel_path env f))).
Proof.
  intros Hp Hf Hn Ha Hc Ht Hr He Hne.
  assert (Hi : fst (index env req w) = fst (process env f w)).
  { unfold index. rewrite Hp, Hf, Ha.
    apply truthy_iff in Hn. rewrite Hn. reflexivity. }
  assert (Hpe : str_eqb (excel_path env f) (pdf_path env f) = false).
  { apply str_eqb_neq. intro E. apply Hne. symmetry. exact E. }
  rewrite Hi, process_answer. rewrite convert_answer, upload_is_read.
  unfold upload_text. rewrite Hc.
  destruct (join_nl (full_text_of pages)) as [|c t]; [contradiction|].
  destruct (parse_text_to_dataframe (c :: t)) as [|r rows]; [contradiction|].
  rewrite Hpe. unfold left_by_save. rewrite He.
  split; [reflexivity|]. split.
  - intros ->. reflexivity.
  - intros -> ->. reflexivity.
Qed.

Lemma route_after_a_failed_save_witness :
  fst (index plain_env (mkRequest true (Some one_row_upload)) partial_world)
  = Download (lit "report.xlsx") Partial /\
  fst (index plain_env (mkRequest true (Some one_row_upload)) failing_world)
  = Redirect (lit "An error occurred: [Errno 2] No such file or directory: '/tmp/uploads/report_t1.xlsx'").
Proof.
  assert (Hn : filename one_row_upload <> []) by (vm_compute; discriminate).
  assert (Ht : join_nl (full_text_of [[mkBlock 0 0 (lit "CADTX1 - 12345678 X Fee")]]) <> [])
    by (vm_compute; discriminate).
  assert (Hr : parse_text_to_dataframe
                 (join_nl (full_text_of [[mkBlock 0 0 (lit "CADTX1 - 12345678 X Fee")]]))
               <> []) by (vm_compute; discriminate).
  assert (Hd : pdf_path plain_env one_row_upload <> excel_path plain_env one_row_upload)
    by (vm_compute; discriminate).
  split.
  - exact (proj1 (proj2 (@route_after_a_failed_save
                    plain_env (mkRequest true (Some one_row_upload)) partial_world
                    one_row_upload _ (mkFault (lit "No space left on device") true)
                    eq_refl eq_refl Hn eq_refl eq_refl Ht Hr eq_refl Hd)) eq_refl).
  - exact (proj2 (proj2 (@route_after_a_failed_save
                    plain_env (mkRequest true (Some one_row_upload)) failing_world
                    one_row_upload _ (mkFault (lit "Permission denied") false)
                    eq_refl eq_refl Hn eq_refl eq_refl Ht Hr eq_refl Hd)) eq_refl eq_refl).
Defined.

End WebFacts.

(** ** Well-formed data rows *)

Section FirstMatch.

Lemma first_atom a c s g : accepts a c = true -> first (Atom a) (c :: s) g (s, g).
Proof. intro H. exists []. simpl. rewrite H. reflexivity. Qed.

Lemma span_stops a (w s' : str) :
  Forall (fun c => accepts a c = true) w -> stops a s' ->
  span a None (w ++ s') = length w.
Proof.
  intros Hw Hs. induction Hw as [|c w Hc Hw IH]; simpl.
  - destruct s' as [|c s']; [reflexivity|]. simpl in *. rewrite Hs. reflexivity.
  - rewrite Hc, IH. reflexivity.
Qed.

(** A greedy repetition first takes all there is of the class. *)
Lemma first_rep a lo (w s' : str) g :
  Forall (fun c => accepts a c = true) w -> stops a s' -> lo <= length w ->
  first (Rep a lo None) (w ++ s') g (s', g).
Proof.
  intros Hw Hs Hlo. unfold first. simpl. unfold counts.
  rewrite (@span_stops a w s' Hw Hs).
  replace (S (length w) - lo) with (S (length w - lo)) by lia.
  rewrite seq_S, rev_app_distr. simpl.
  replace (lo + (length w - lo)) with (length w) by lia.
  rewrite skipn_length_app. eexists. reflexivity.
Qed.

Lemma first_rep_none a lo (s : str) g :
  0 < lo -> stops a s -> run (Rep a lo None) s g = [].
Proof.
  intros Hlo Hs. simpl. unfold counts.
  assert (E : span a None s = 0).
  { destruct s as [|c s]; [reflexivity|]. simpl in *. rewrite Hs. reflexivity. }
  rewrite E. replace (1 - lo) with 0 by lia. reflexivity.
Qed.

Lemma first_cat r1 r2 s g m1 m2 :
  first r1 s g m1 -> first r2 (fst m1) (snd m1) m2 -> first (Cat r1 r2) s g m2.
Proof.
  intros [l1 E1] [l2 E2]. unfold first. simpl. rewrite E1. simpl. rewrite E2.
  eexists. reflexivity.
Qed.

Lemma first_opt r s g m : first r s g m -> first (Opt r) s g m.
Proof. intros [l E]. unfold first. simpl. rewrite E. eexists. reflexivity. Qed.

Lemma first_opt_none r s g : run r s g = [] -> first (Opt r) s g (s, g).
Proof. intro E. unfold first. simpl. rewrite E. eexists. reflexivity. Qed.

Lemma first_grp i r (w s' : str) g g' :
  first r (w ++ s') g (s', g') -> first (Grp i r) (w ++ s') g (s', (i, w) :: g').
Proof.
  intros [l E]. unfold first. simpl. rewrite E. simpl. rewrite consumed_app.
  eexists. reflexivity.
Qed.

Lemma first_match r s g' :
  first r s [] ([], g') -> re_match r s = Some g'.
Proof. intros [l E]. unfold re_match. rewrite E. reflexivity. Qed.

Lemma first_match_any r s s' g' :
  first r s [] (s', g') -> re_match r s = Some g'.
Proof. intros [l E]. unfold re_match. rewrite E. reflexivity. Qed.

End FirstMatch.

Section DataRows.

Lemma first_spaces (ws s' : str) g :
  Forall (fun c => isspace c = true) ws -> stops Space s' ->
  first (star Space) (ws ++ s') g (s', g).
Proof. intros Hw Hs. apply first_rep; [exact Hw|exact Hs|lia]. Qed.

Lemma first_no_space (s : str) g : stops Space s -> first (star Space) s g (s, g).
Proof. intro Hs. apply (@first_spaces [] s g); [constructor|exact Hs]. Qed.

Lemma first_one_space (s : str) g :
  stops Space s -> first (star Space) (lit " " ++ s) g (s, g).
Proof. intro Hs. apply first_spaces; [repeat constructor|exact Hs]. Qed.

Lemma first_id (tail s1 : str) g :
  tail <> [] -> Forall (fun c => isword c = true) tail -> stops Word s1 ->
  first (Opt (Grp 1 (Cat (word "CADT") (plus Word))))
        (lit "CADT" ++ tail ++ s1) g
        (s1, (1, lit "CADT" ++ tail) :: g).
Proof.
  intros Hne Hw Hs. apply first_opt.
  apply (@first_grp 1 _ (lit "CADT" ++ tail) s1 g g).
  apply first_cat with (m1 := (tail ++ s1, g)).
  - repeat (eapply first_cat; [apply first_atom; reflexivity|]).
    apply first_atom. reflexivity.
  - apply first_rep; [exact Hw|exact Hs|].
    destruct tail; [contradiction|simpl; lia].
Qed.

Lemma first_numeric (digits s' : str) g :
  Forall (fun c => isdecimal c = true) digits -> 8 <= length digits -> stops Digit s' ->
  first (Opt (Grp 2 (at_least 8 Digit))) (digits ++ s') g (s', (2, digits) :: g).
Proof.
  intros Hd Hl Hs. apply first_opt. apply first_grp.
  apply first_rep; assumption.
Qed.

Lemma first_no_numeric (s : str) g :
  stops Digit s -> first (Opt (Grp 2 (at_least 8 Digit))) s g (s, g).
Proof.
  intro Hs. apply first_opt_none.
  assert (E : run (at_least 8 Digit) s g = [])
    by (apply first_rep_none; [lia|exact Hs]).
  change (run (Grp 2 (at_least 8 Digit)) s g)
    with (map (fun m => (fst m, (2, consumed s (fst m)) :: snd m))
              (run (at_least 8 Digit) s g)).
  rewrite E. reflexivity.
Qed.

Lemma first_description (desc : str) g :
  ~ In newline desc -> first (Grp 3 (star Dot)) desc g ([], (3, desc) :: g).
Proof.
  intro Hn.
  assert (H : first (Grp 3 (star Dot)) (desc ++ []) g ([], (3, desc) :: g)).
  { apply first_grp. apply first_rep; [|exact I|lia].
    apply Forall_forall. intros c Hc. simpl.
    destruct (Ascii.eqb c newline) eqn:E; [|reflexivity].
    apply Ascii.eqb_eq in E. subst c. contradiction. }
  rewrite app_nil_r in H. exact H.
Qed.

Lemma first_no_underscore (s : str) g :
  stops (Chr "_") s -> first (Opt (Atom (Chr "_"))) s g (s, g).
Proof.
  intro Hs. apply first_opt_none. destruct s as [|c s]; [reflexivity|].
  simpl in *. rewrite Hs. reflexivity.
Qed.

(** From the X mark on: blanks or none, the mark, with or without
    underscores, and then the description as the third group. *)
Lemma first_from_mark (ws : str) (u1 u2 : bool) (desc : str) g :
  Forall (fun c => isspace c = true) ws ->
  plain_description desc ->
  first (cat [star Space; Opt (Atom (Chr "_")); star Space; Atom (Chr "X");
              star Space; Opt (Atom (Chr "_")); star Space; Grp 3 (star Dot)])
        (ws ++ x_mark u1 u2 ++ desc) g ([], (3, desc) :: g).
Proof.
  intros Hws [Hs [Hu Hn]]. simpl cat.
  pose proof (@first_description desc g Hn) as Hd.
  pose proof (@first_no_space desc g Hs) as H0.
  pose proof (@first_no_underscore desc g Hu) as Hu0.
  destruct u1, u2; unfold x_mark; simpl app;
    (eapply first_cat; [apply first_spaces; [exact Hws|reflexivity]|]).
  - eapply first_cat; [apply first_opt; apply first_atom; reflexivity|].
    eapply first_cat; [apply first_no_space; reflexivity|].
    eapply first_cat; [apply first_atom; reflexivity|].
    eapply first_cat; [apply first_no_space; reflexivity|].
    eapply first_cat; [apply first_opt; apply first_atom; reflexivity|].
    eapply first_cat; [apply (@first_one_space desc g); exact Hs|].
    exact Hd.
  - eapply first_cat; [apply first_opt; apply first_atom; reflexivity|].
    eapply first_cat; [apply first_no_space; reflexivity|].
    eapply first_cat; [apply first_atom; reflexivity|].
    eapply first_cat; [apply (@first_one_space desc g); exact Hs|].
    eapply first_cat; [exact Hu0|].
    eapply first_cat; [exact H0|].
    exact Hd.
  - eapply first_cat; [apply first_no_underscore; reflexivity|].
    eapply first_cat; [apply first_no_space; reflexivity|].
    eapply first_cat; [apply first_atom; reflexivity|].
    eapply first_cat; [apply first_no_space; reflexivity|].
    eapply first_cat; [apply first_opt; apply first_atom; reflexivity|].
    eapply first_cat; [apply (@first_one_space desc g); exact Hs|].
    exact Hd.
  - eapply first_cat; [apply first_no_underscore; reflexivity|].
    eapply first_cat; [apply first_no_space; reflexivity|].
    eapply first_cat; [apply first_atom; reflexivity|].
    eapply first_cat; [apply (@first_one_space desc g); exact Hs|].
    eapply first_cat; [exact Hu0|].
    eapply first_cat; [exact H0|].
    exact Hd.
Qed.

End DataRows.

Section Layouts.

Variables (tail digits : str).
Hypothesis tail_nonempty : tail <> [].
Hypothesis tail_word : Forall (fun c => isword c = true) tail.
Hypothesis digits_decimal : Forall (fun c => isdecimal c = true) digits.
Hypothesis digits_long : 8 <= length digits.

Lemma no_trail_app (a b : str) : no_trail b -> b <> [] -> no_trail (a ++ b).
Proof.
  rewrite !no_trail_rev, rev_app_distr. intros H Hb.
  destruct (rev b) as [|c r] eqn:E.
  - apply (f_equal (@rev ascii)) in E. rewrite rev_involutive in E. contradiction.
  - simpl. apply dropwhile_same in H. rewrite H. reflexivity.
Qed.

Lemma description_facts desc :
  description_ok desc -> no_trail desc /\ stops Space desc /\ lstrip desc = desc.
Proof.
  intros [Hne [Hs _]]. split; [rewrite <- Hs; apply strip_no_trail|].
  destruct desc as [|c r]; [contradiction|].
  pose proof (strip_head _ Hs) as Hc. split; [exact Hc|].
  apply dropwhile_fix. exact Hc.
Qed.

Lemma digits_head (s' : str) : stops Space (digits ++ s') /\ stops (Chr "_") (digits ++ s').
Proof.
  destruct digits as [|d ds]; [simpl in digits_long; lia|].
  inversion digits_decimal as [|? ? Hd _]; subst. simpl. split.
  - apply digit_nonspace in Hd. unfold nonspace in Hd.
    apply negb_true_iff in Hd. exact Hd.
  - destruct (Ascii.eqb d "_") eqn:E; [|reflexivity].
    apply Ascii.eqb_eq in E. subst d. discriminate.
Qed.

Lemma digits_no_newline : ~ In newline digits.
Proof.
  intro H. rewrite Forall_forall in digits_decimal.
  specialize (digits_decimal _ H). discriminate.
Qed.

Lemma cadt_line_stripped (mid desc : str) :
  description_ok desc -> strip (lit "CADT" ++ tail ++ mid ++ desc) = lit "CADT" ++ tail ++ mid ++ desc.
Proof.
  intro Hd. destruct (description_facts Hd) as [Hnt _]. destruct Hd as [Hne _].
  apply strip_fix; [reflexivity|].
  rewrite (app_assoc tail mid desc).
  apply (@no_trail_app (lit "CADT" ++ tail ++ mid) desc); assumption.
Qed.

Lemma cadt_line_no_header (rest : str) : is_header (lit "CADT" ++ rest) = false.
Proof. reflexivity. Qed.

(** The primary match of the direct layout. *)
Lemma direct_line_match u1 u2 desc :
  plain_description desc ->
  re_match data_pattern (direct_line tail digits u1 u2 desc)
  = Some [(3, desc); (2, digits); (1, lit "CADT" ++ tail)].
Proof.
  intro Hp. apply first_match. unfold data_pattern, direct_line.
  change (cat _) with
    (Cat (Opt (Grp 1 (Cat (word "CADT") (plus Word))))
      (Cat (star Space) (Cat (Atom (Chr "-")) (Cat (star Space)
        (Cat (Opt (Grp 2 (at_least 8 Digit)))
          (cat [star Space; Opt (Atom (Chr "_")); star Space; Atom (Chr "X");
                star Space; Opt (Atom (Chr "_")); star Space; Grp 3 (star Dot)])))))).
  eapply first_cat; [apply first_id; [exact tail_nonempty|exact tail_word|reflexivity]|].
  eapply first_cat; [apply first_one_space; reflexivity|].
  eapply first_cat; [apply first_atom; reflexivity|].
  eapply first_cat; [apply first_one_space; apply digits_head|].
  eapply first_cat;
    [apply first_numeric; [exact digits_decimal|exact digits_long|reflexivity]|].
  apply (@first_from_mark (lit " ")); [repeat constructor|exact Hp].
Qed.

(** The primary match of the fused layout: no second group, and the numeric
    code at the front of the third. *)
Lemma fused_line_match u1 u2 desc :
  ~ In newline desc ->
  re_match data_pattern (fused_line tail digits u1 u2 desc)
  = Some [(3, digits ++ lit " " ++ desc); (1, lit "CADT" ++ tail)].
Proof.
  intro Hn. apply first_match. unfold data_pattern, fused_line.
  change (cat _) with
    (Cat (Opt (Grp 1 (Cat (word "CADT") (plus Word))))
      (Cat (star Space) (Cat (Atom (Chr "-")) (Cat (star Space)
        (Cat (Opt (Grp 2 (at_least 8 Digit)))
          (cat [star Space; Opt (Atom (Chr "_")); star Space; Atom (Chr "X");
                star Space; Opt (Atom (Chr "_")); star Space; Grp 3 (star Dot)])))))).
  eapply first_cat; [apply first_id; [exact tail_nonempty|exact tail_word|reflexivity]|].
  eapply first_cat; [apply first_one_space; reflexivity|].
  eapply first_cat; [apply first_atom; reflexivity|].
  eapply first_cat;
    [apply first_one_space; destruct u1, u2; reflexivity|].
  eapply first_cat; [apply first_no_numeric; destruct u1, u2; reflexivity|].
  apply (@first_from_mark [] u1 u2 (digits ++ lit " " ++ desc)); [constructor|].
  destruct (digits_head (lit " " ++ desc)) as [H1 H2].
  split; [exact H1|]. split; [exact H2|].
  intro H. apply in_app_or in H. destruct H as [H|H]; [exact (digits_no_newline H)|].
  destruct H as [H|H]; [discriminate|contradiction].
Qed.

End Layouts.

Lemma trail_app (a b : str) :
  no_trail b /\ b <> [] -> no_trail (a ++ b) /\ a ++ b <> [].
Proof.
  intros [H Hb]. split; [apply no_trail_app; assumption|].
  intro E. apply app_eq_nil in E. destruct E as [_ E]. contradiction.
Qed.

Lemma strip_cadt (rest : str) :
  no_trail (lit "CADT" ++ rest) -> strip (lit "CADT" ++ rest) = lit "CADT" ++ rest.
Proof.
  intro H. apply (@strip_fix "C"%char (lit "ADT" ++ rest)); [reflexivity|exact H].
Qed.

Lemma not_header_parts line :
  is_header line = false ->
  is_level1 line = false /\ matches level2_pattern line = false /\
  matches level3_pattern line = false.
Proof.
  unfold is_header. intro H. apply orb_false_iff in H. destruct H as [H H3].
  apply orb_false_iff in H. destruct H as [H1 H2]. repeat split; assumption.
Qed.

(** The row a data line gives once its fields are known. *)
Lemma loop_body_row st line g fields :
  strip line = line ->
  skipped line = false ->
  is_header line = false ->
  re_match data_pattern line = Some g ->
  decode (lookup 1 g) (lookup 2 g) (lookup 3 g) = fields ->
  truthy (fst (fst fields)) = true ->
  loop_body st line = mkState (ctx st) (data st ++ [row_of (ctx st) fields]).
Proof.
  intros Hs H0 Hh Hm Hd Ht.
  destruct (not_header_parts _ Hh) as [H1 [H2 H3]].
  unfold loop_body. rewrite Hs, H0, H1, H2, H3.
  unfold data_row. rewrite Hm, Hd. destruct fields as [[i n] d]. simpl in *.
  rewrite Ht. reflexivity.
Qed.

Lemma all_decimal_isdigit (digits : str) :
  Forall (fun c => isdecimal c = true) digits -> 8 <= length digits ->
  isdigit digits = true /\ (8 <=? length digits) = true /\ truthy digits = true.
Proof.
  intros Hd Hl. assert (Ht : truthy digits = true).
  { destruct digits; [simpl in Hl; lia|reflexivity]. }
  split; [|split; [apply Nat.leb_le; exact Hl|exact Ht]].
  unfold isdigit. rewrite Ht. apply forallb_forall. rewrite Forall_forall in Hd.
  intros c Hc. apply decimal_isdigit. apply Hd. exact Hc.
Qed.

(** X19: a line [CADT<word> - <digits> X <description>], the X with or
    without underscores, with eight digits or more and a description on one
    line that does not start with an underscore, adds exactly one row: the id,
    the digits and the description, under the levels in force. *)
Theorem direct_layout_gives_its_fields
        (st : State) (tail digits : str) (u1 u2 : bool) (desc : str) :
  tail <> [] ->
  Forall (fun c => isword c = true) tail ->
  Forall (fun c => isdecimal c = true) digits ->
  8 <= length digits ->
  description_ok desc ->
  stops (Chr "_") desc ->
  skipped (direct_line tail digits u1 u2 desc) = false ->
  loop_body st (direct_line tail digits u1 u2 desc)
  = mkState (ctx st)
            (data st ++ [row_of (ctx st) (lit "CADT" ++ tail, digits, desc)]).
Proof.
  intros Hne Hw Hd Hl Hdesc Hu Hskip.
  destruct (description_facts Hdesc) as [Hnt [Hsp _]].
  destruct (all_decimal_isdigit Hd Hl) as [_ [_ Ht]].
  apply loop_body_row with (g := [(3, desc); (2, digits); (1, lit "CADT" ++ tail)]).
  - unfold direct_line. apply strip_cadt.
    apply (proj1 (trail_app _ (trail_app _ (trail_app _ (trail_app _ (trail_app _
             (trail_app _ (conj Hnt (proj1 Hdesc))))))))).
  - exact Hskip.
  - apply cadt_line_no_header.
  - apply direct_line_match; try assumption.
    split; [exact Hsp|]. split; [exact Hu|]. apply Hdesc.
  - simpl lookup. unfold decode. simpl or_empty. rewrite Ht.
    rewrite andb_false_r. rewrite (proj1 (proj2 Hdesc)). reflexivity.
  - reflexivity.
Qed.

Lemma direct_layout_gives_its_fields_witness :
  loop_body init_state (lit "CADTX123 - 40102345 _X_ Fee income")
  = mkState init_context
      [mkRow [] [] [] [] (lit "CADTX123") (lit "40102345") (lit "Fee income")].
Proof.
  assert (H1 : lit "X123" <> []) by discriminate.
  assert (H2 : Forall (fun c => isword c = true) (lit "X123")) by (repeat constructor).
  assert (H3 : Forall (fun c => isdecimal c = true) (lit "40102345"))
    by (repeat constructor).
  assert (H4 : 8 <= length (lit "40102345")) by (simpl; lia).
  assert (H5 : description_ok (lit "Fee income")).
  { split; [discriminate|]. split; [reflexivity|].
    vm_compute. intro H. repeat (destruct H as [H|H]; [discriminate H|]). exact H. }
  exact (@direct_layout_gives_its_fields init_state (lit "X123") (lit "40102345")
           true true (lit "Fee income") H1 H2 H3 H4 H5 eq_refl eq_refl).
Defined.

(** X20: a line [CADT<word> - X <digits> <description>], the X with or
    without underscores, where the numeric code stands after the mark, adds
    the same row as the direct layout: the fallback takes the digits from the
    front of the description. *)
Theorem fused_layout_gives_its_fields
        (st : State) (tail digits : str) (u1 u2 : bool) (desc : str) :
  tail <> [] ->
  Forall (fun c => isword c = true) tail ->
  Forall (fun c => isdecimal c = true) digits ->
  8 <= length digits ->
  description_ok desc ->
  skipped (fused_line tail digits u1 u2 desc) = false ->
  loop_body st (fused_line tail digits u1 u2 desc)
  = mkState (ctx st)
            (data st ++ [row_of (ctx st) (lit "CADT" ++ tail, digits, desc)]).
Proof.
  intros Hne Hw Hd Hl Hdesc Hskip.
  destruct (description_facts Hdesc) as [Hnt [Hsp Hls]].
  destruct (all_decimal_isdigit Hd Hl) as [Hdig [Hlen Ht]].
  assert (Hnt' : no_trail (digits ++ lit " " ++ desc))
    by (apply (proj1 (trail_app _ (trail_app _ (conj Hnt (proj1 Hdesc)))))).
  apply loop_body_row with (g := [(3, digits ++ lit " " ++ desc); (1, lit "CADT" ++ tail)]).
  - unfold fused_line. apply strip_cadt.
    apply (proj1 (trail_app _ (trail_app _ (trail_app _ (trail_app _ (trail_app _
             (trail_app _ (conj Hnt (proj1 Hdesc))))))))).
  - exact Hskip.
  - apply cadt_line_no_header.
  - apply fused_line_match; try assumption. apply Hdesc.
  - simpl lookup. unfold decode. simpl or_empty. simpl truthy. simpl negb.
    change (digits ++ " "%char :: desc) with (digits ++ lit " " ++ desc).
    assert (Hst : strip (digits ++ lit " " ++ desc) = digits ++ lit " " ++ desc).
    { destruct digits as [|d ds] eqn:E; [discriminate|].
      apply strip_fix; [|exact Hnt'].
      inversion Hd as [|? ? Hd0 _]; subst. apply digit_nonspace in Hd0.
      unfold nonspace in Hd0. apply negb_true_iff in Hd0. exact Hd0. }
    rewrite Hst.
    assert (Hne' : digits <> []) by (destruct digits; [discriminate|discriminate]).
    assert (Hall : Forall (fun c => nonspace c = true) digits).
    { eapply Forall_impl; [|exact Hd]. intros a Ha. apply digit_nonspace; exact Ha. }
    assert (Hws : lit " " <> []) by discriminate.
    assert (Hsp' : Forall (fun c => isspace c = true) (lit " ")) by (repeat constructor).
    destruct (split1_token desc Hne' Hall Hws Hsp' Hnt') as [Hs _].
    rewrite Hs, Hls, Hdig, Hlen. reflexivity.
  - reflexivity.
Qed.

Lemma fused_layout_gives_its_fields_witness :
  loop_body init_state (lit "CADTX1 - _X_ 40102345 Fee income")
  = mkState init_context
      [mkRow [] [] [] [] (lit "CADTX1") (lit "40102345") (lit "Fee income")].
Proof.
  assert (H1 : lit "X1" <> []) by discriminate.
  assert (H2 : Forall (fun c => isword c = true) (lit "X1")) by (repeat constructor).
  assert (H3 : Forall (fun c => isdecimal c = true) (lit "40102345"))
    by (repeat constructor).
  assert (H4 : 8 <= length (lit "40102345")) by (simpl; lia).
  assert (H5 : description_ok (lit "Fee income")).
  { split; [discriminate|]. split; [reflexivity|].
    vm_compute. intro H. repeat (destruct H as [H|H]; [discriminate H|]). exact H. }
  exact (@fused_layout_gives_its_fields init_state (lit "X1") (lit "40102345")
           true true (lit "Fee income") H1 H2 H3 H4 H5 eq_refl).
Defined.
